(** * harnessHelpers: the configuration flattener and differ, the pagination
    walker, the pipeline lister, the entry points and the appID extractor.

    The scripts work on values decoded from JSON (or YAML) with Python's
    standard decoders.  A [str] is modelled as its sequence of characters,
    each one an [ascii] (code points below 256), numbers as integers, a
    [dict] as an association list in insertion order, and a [list] as a
    list. *)

From Stdlib Require Import List String Ascii ZArith Bool Arith Lia.
From Stdlib Require Import DecimalString DecimalNat Sorted Permutation OrderedTypeEx.
Import ListNotations.

Local Open Scope string_scope.
Local Open Scope list_scope.

(* ================================================================== *)
(** * Part I: the embedding *)
(* ================================================================== *)

(** ** Python values *)

#[local] Unset Elimination Schemes.
Inductive value : Type :=
| VNone
| VBool (b : bool)
| VInt (n : Z)
| VStr (s : string)
| VList (l : list value)
| VDict (d : list (string * value)).
#[local] Set Elimination Schemes.

Definition items := list (string * value).
Definition dict := list (string * value).

(** [bool(v)]: the truth value Python gives to [v] in a condition. *)
Definition truthy (v : value) : bool :=
  match v with
  | VNone => false
  | VBool b => b
  | VInt n => negb (n =? 0)%Z
  | VStr s => negb (s =? "")
  | VList l => match l with [] => false | _ => true end
  | VDict d => match d with [] => false | _ => true end
  end.

Definition is_dict (v : value) : bool :=
  match v with VDict _ => true | _ => false end.

Definition is_list (v : value) : bool :=
  match v with VList _ => true | _ => false end.

(** string, number, boolean or null *)
Definition is_scalar (v : value) : bool :=
  match v with VList _ | VDict _ => false | _ => true end.

(** ** Dictionaries *)

Definition keys (d : dict) : list string := map fst d.

(** [d.get(k)], [None] when [k] is not a key *)
Fixpoint dict_get (k : string) (d : dict) : option value :=
  match d with
  | [] => None
  | (k', v) :: rest => if k =? k' then Some v else dict_get k rest
  end.

(** [d.get(k, default)] *)
Definition dict_get_default (k : string) (default : value) (d : dict) : value :=
  match dict_get k d with Some v => v | None => default end.

(** [k in d] *)
Definition dict_mem (k : string) (d : dict) : bool :=
  match dict_get k d with Some _ => true | None => false end.

(** [d[k] = v]: an existing key keeps its place and takes the new value, a
    new key goes to the end. *)
Fixpoint dict_set (d : dict) (k : string) (v : value) : dict :=
  match d with
  | [] => [(k, v)]
  | (k', v') :: rest =>
      if k =? k' then (k', v) :: rest else (k', v') :: dict_set rest k v
  end.

(** [dict(items)] *)
Definition dict_of_items (l : items) : dict :=
  fold_left (fun acc kv => dict_set acc (fst kv) (snd kv)) l [].

(** ** The config flattener (compareDefaultvsCustomerConfigHarness.py) *)

(** [str(i)] for an index *)
Definition str_of_nat (i : nat) : string :=
  NilEmpty.string_of_uint (Nat.to_uint i).

(** [f"{parent_key}{sep}{k}" if parent_key else k] *)
Definition new_key (parent_key sep k : string) : string :=
  if parent_key =? "" then k else parent_key ++ sep ++ k.

(** [f"{new_key}[{i}]"] *)
Definition index_key (key : string) (i : nat) : string :=
  key ++ "[" ++ str_of_nat i ++ "]".

Section FlattenLoops.
(** [rec v key] stands for [flatten_dict(v, key, sep=sep).items()] on a
    value [v] that is a dict. *)
Variable rec : value -> string -> items.

(** the loop [for i, item in enumerate(v)], from index [i] on *)
Fixpoint flatten_elements (key : string) (i : nat) (l : list value) : items :=
  match l with
  | [] => []
  | item :: rest =>
      (if is_dict item
       then rec item (index_key key i)
       else [(index_key key i, item)])
      ++ flatten_elements key (S i) rest
  end.

(** what one member [(k, v)] adds to [items], [key] being its [new_key] *)
Definition flatten_member (key : string) (v : value) : items :=
  match v with
  | VDict _ => rec v key
  | VList l => flatten_elements key 0 l
  | _ => [(key, v)]
  end.

(** the loop [for k, v in d.items()] *)
Fixpoint flatten_members (parent_key sep : string) (d : dict) : items :=
  match d with
  | [] => []
  | (k, v) :: rest =>
      flatten_member (new_key parent_key sep k) v
      ++ flatten_members parent_key sep rest
  end.
End FlattenLoops.

(** [flatten_dict] on a value; the source only ever calls it on a dict. *)
Fixpoint flatten_value (v : value) (parent_key sep : string) {struct v} : dict :=
  match v with
  | VDict d =>
      dict_of_items
        (flatten_members (fun v' key => flatten_value v' key sep)
           parent_key sep d)
  | _ => []
  end.

Definition flatten_dict (d : dict) (parent_key sep : string) : dict :=
  flatten_value (VDict d) parent_key sep.

(** [flatten_dict(d)] with the default arguments *)
Definition flatten (d : dict) : dict := flatten_dict d "" ".".

(** The items one member contributes, with the recursive call named. *)
Definition member_items (sep key : string) (v : value) : items :=
  flatten_member (fun v' key' => flatten_value v' key' sep) key v.

Definition element_items (sep key : string) (i : nat) (l : list value) : items :=
  flatten_elements (fun v' key' => flatten_value v' key' sep) key i l.

(** The flattening rule in the spec's words: [spec_path p sep d key x] says
    that walking the mapping [d] under prefix [p] reaches the value [x] at
    path [key].  A mapping member [k] under prefix [p] has prefix [p.k] (just
    [k] at the root, the empty prefix); a sequence element at index [i] has
    prefix [p[i]]; mappings met on the way, as members or as sequence
    elements, are walked in turn; everything else is stored as it is. *)
Definition spec_prefix (p sep k : string) : string :=
  match p with EmptyString => k | _ => p ++ sep ++ k end.

Inductive spec_path (sep : string) : string -> dict -> string -> value -> Prop :=
| path_member p d k v :
    In (k, v) d -> is_dict v = false -> is_list v = false ->
    spec_path sep p d (spec_prefix p sep k) v
| path_mapping p d k d' key x :
    In (k, VDict d') d ->
    spec_path sep (spec_prefix p sep k) d' key x ->
    spec_path sep p d key x
| path_element p d k l i item :
    In (k, VList l) d -> nth_error l i = Some item -> is_dict item = false ->
    spec_path sep p d (index_key (spec_prefix p sep k) i) item
| path_element_mapping p d k l i d' key x :
    In (k, VList l) d -> nth_error l i = Some (VDict d') ->
    spec_path sep (index_key (spec_prefix p sep k) i) d' key x ->
    spec_path sep p d key x.

(** No sequence has a sequence as a direct element, at any depth. *)
Fixpoint no_list_in_list (v : value) : bool :=
  match v with
  | VList l => forallb (fun x => negb (is_list x) && no_list_in_list x) l
  | VDict d => forallb (fun kv => no_list_in_list (snd kv)) d
  | _ => true
  end.

(** ** The config differ (compareDefaultvsCustomerConfigHarness.py) *)

(** [a == b] on decoded values: [True] and [False] compare equal to [1] and
    [0], sequences are compared element by element, and two mappings are
    equal when they have as many keys and every key of the first is a key of
    the second with an equal value. *)
Fixpoint py_eq (a b : value) {struct a} : bool :=
  match a, b with
  | VNone, VNone => true
  | VBool x, VBool y => Bool.eqb x y
  | VBool x, VInt n => (n =? (if x then 1 else 0))%Z
  | VInt n, VBool x => (n =? (if x then 1 else 0))%Z
  | VInt m, VInt n => (m =? n)%Z
  | VStr s, VStr t => (s =? t)%string
  | VList l, VList l' =>
      (fix eq_list (l l' : list value) : bool :=
         match l, l' with
         | [], [] => true
         | x :: r, y :: r' => py_eq x y && eq_list r r'
         | _, _ => false
         end) l l'
  | VDict d, VDict d' =>
      (List.length d =? List.length d')%nat &&
      forallb (fun kv => match dict_get (fst kv) d' with
                         | Some v' => py_eq (snd kv) v'
                         | None => false
                         end) d
  | _, _ => false
  end.

(** [a != b] *)
Definition py_ne (a b : value) : bool := negb (py_eq a b).

(** [sorted] on strings: Python orders [str] by code point, character by
    character, a proper prefix first. *)
Fixpoint insert_sorted (k : string) (l : list string) : list string :=
  match l with
  | [] => [k]
  | x :: r => if (k <=? x)%string then k :: l else x :: insert_sorted k r
  end.

(** the order of [sorted], strict *)
Definition str_lt : string -> string -> Prop := String_as_OT.lt.

Definition sorted (l : list string) : list string :=
  fold_right insert_sorted [] l.

(** [set(a.keys()) | set(b.keys())], each key once *)
Definition all_keys (flat_default flat_customer : dict) : list string :=
  nodup string_dec (keys flat_default ++ keys flat_customer).

Record DiffResult : Type := mkDiff {
  only_in_default : list (string * value);
  only_in_customer : list (string * value);
  different_values : list (string * value * value);
  same_values : list (string * value)
}.

Definition empty_diff : DiffResult := mkDiff [] [] [] [].

Definition NOT_SET : value := VStr "<NOT_SET>".

(** the body of [for key in sorted(all_keys)] *)
Definition classify (flat_default flat_customer : dict)
    (acc : DiffResult) (key : string) : DiffResult :=
  let default_val := dict_get_default key NOT_SET flat_default in
  let customer_val := dict_get_default key NOT_SET flat_customer in
  if negb (dict_mem key flat_customer) then
    mkDiff (only_in_default acc ++ [(key, default_val)])
      (only_in_customer acc) (different_values acc) (same_values acc)
  else if negb (dict_mem key flat_default) then
    mkDiff (only_in_default acc)
      (only_in_customer acc ++ [(key, customer_val)])
      (different_values acc) (same_values acc)
  else if py_ne default_val customer_val then
    mkDiff (only_in_default acc) (only_in_customer acc)
      (different_values acc ++ [(key, default_val, customer_val)])
      (same_values acc)
  else
    mkDiff (only_in_default acc) (only_in_customer acc)
      (different_values acc) (same_values acc ++ [(key, default_val)]).

(** the keys in the order the loop visits them *)
Definition visited_keys (flat_default flat_customer : dict) : list string :=
  sorted (all_keys flat_default flat_customer).

(** lines 107 to 126: the four lists after the loop *)
Definition diff (flat_default flat_customer : dict) : DiffResult :=
  fold_left (classify flat_default flat_customer)
    (visited_keys flat_default flat_customer) empty_diff.

Definition keys_of {A} (l : list (string * A)) : list string := map fst l.
Definition changed_keys (r : DiffResult) : list string :=
  map (fun t => fst (fst t)) (different_values r).





(** The four tests of the loop body, each with the tests before it failed. *)
Section Tests.
Variables flat_default flat_customer : dict.
Let default_val k := dict_get_default k NOT_SET flat_default.
Let customer_val k := dict_get_default k NOT_SET flat_customer.

Definition goes_default_only (k : string) : bool :=
  negb (dict_mem k flat_customer).
Definition goes_customer_only (k : string) : bool :=
  dict_mem k flat_customer && negb (dict_mem k flat_default).
Definition goes_different (k : string) : bool :=
  dict_mem k flat_customer && dict_mem k flat_default
  && py_ne (default_val k) (customer_val k).
Definition goes_same (k : string) : bool :=
  dict_mem k flat_customer && dict_mem k flat_default
  && negb (py_ne (default_val k) (customer_val k)).
End Tests.

(** ** Effects: printed lines, network requests, exceptions *)

(** A printed line is kept as its fixed text (ASCII only, pictographs and
    blank-line prefixes left out) with the values formatted into it.  A
    request is kept as its URL, query parameters and headers or body. *)
Inductive event : Type :=
| Print (text : string) (args : list value)
| Request (method url : string) (params : dict) (extra : option value).

Inductive exn : Type :=
| AttributeError
| TypeError
| ValueError
| SystemExit (code : nat).

(** How a computation ends; [OutOfFuel] only for a loop cut short by the
    bound the model puts on it. *)
Inductive result (A : Type) : Type :=
| Ok (a : A)
| Raised (e : exn)
| OutOfFuel.
Arguments Ok {A} a.
Arguments Raised {A} e.
Arguments OutOfFuel {A}.

Definition M (A : Type) : Type := (list event * result A)%type.

Definition ret {A} (a : A) : M A := ([], Ok a).

Definition bind {A B} (m : M A) (k : A -> M B) : M B :=
  match m with
  | (t, Ok a) => let (t', r) := k a in (t ++ t', r)
  | (t, Raised e) => (t, Raised e)
  | (t, OutOfFuel) => (t, OutOfFuel)
  end.

Definition raise {A} (e : exn) : M A := ([], Raised e).
Definition print (text : string) (args : list value) : M unit :=
  ([Print text args], Ok tt).

Notation "x <- c ;; k" := (bind c (fun x => k))
  (at level 61, c at next level, right associativity).
Notation "c ;; k" := (bind c (fun _ => k))
  (at level 61, right associativity).

(** [for x in l: body x] *)
Fixpoint for_each {A} (l : list A) (body : A -> M unit) : M unit :=
  match l with
  | [] => ret tt
  | x :: r => body x ;; for_each r body
  end.

Definition trace {A} (m : M A) : list event := fst m.
Definition outcome {A} (m : M A) : result A := snd m.

Definition is_request (e : event) : bool :=
  match e with Request _ _ _ _ => true | Print _ _ => false end.

(** the number of requests sent *)
Definition requests_sent {A} (m : M A) : nat :=
  List.length (filter is_request (trace m)).

(** The exit status of a script run as [__main__]: 0 when it runs to its
    end, the argument of [sys.exit], 1 for any other uncaught exception. *)
Definition exit_code {A} (m : M A) : option nat :=
  match outcome m with
  | Ok _ => Some 0
  | Raised (SystemExit c) => Some c
  | Raised _ => Some 1
  | OutOfFuel => None
  end.

(** What a request gives back: the decoded JSON body, or a
    [RequestException] with the status code of its response when it has
    one. *)
Inductive reply : Type :=
| Body (v : value)
| Failure (status : option nat).

(** The process environment: [os.getenv] of the two variables. *)
Record environ : Type := mkEnv {
  HARNESS_API_TOKEN : option string;
  HARNESS_ACCT_ID : option string
}.

(** [not s] for the result of [os.getenv] *)
Definition unset (s : option string) : bool :=
  match s with
  | None => true
  | Some s => (s =? "")%string
  end.

Definition env_value (s : option string) : value :=
  match s with None => VNone | Some s => VStr s end.

(** [v.get(k, default)], an [AttributeError] when [v] is not a mapping *)
Definition py_get (v : value) (k : string) (default : value) : M value :=
  match v with
  | VDict d => ret (dict_get_default k default d)
  | _ => raise AttributeError
  end.

(** [c * n] for a one-character string *)
Definition rule (c : string) (n : nat) : string := String.concat "" (repeat c n).

(** ** The comparison report (compareDefaultvsCustomerConfigHarness.py) *)

(** [flatten_dict(data)]: [data.items()] needs a mapping *)
Definition flatten_data (data : value) : M dict :=
  match data with
  | VDict d => ret (flatten d)
  | _ => raise AttributeError
  end.

Definition nat_value (n : nat) : value := VInt (Z.of_nat n).

(** lines 128 to 163 *)
Definition display (r : DiffResult) : M unit :=
  (match different_values r with
   | [] => ret tt
   | _ =>
       print "OVERRIDDEN VALUES:" [] ;;
       print (rule "-" 50) [] ;;
       for_each (different_values r) (fun t =>
         print "Key: {}" [VStr (fst (fst t))] ;;
         print "  Default:  {}" [snd (fst t)] ;;
         print "  Customer: {}" [snd t] ;;
         print "" [])
   end) ;;
  (match only_in_customer r with
   | [] => ret tt
   | _ =>
       print "CUSTOMER-ONLY SETTINGS:" [] ;;
       print (rule "-" 50) [] ;;
       for_each (only_in_customer r) (fun t =>
         print "Key: {}" [VStr (fst t)] ;;
         print "  Value: {}" [snd t] ;;
         print "" [])
   end) ;;
  (match only_in_default r with
   | [] => ret tt
   | _ =>
       print "DEFAULT-ONLY SETTINGS (not overridden):" [] ;;
       print (rule "-" 50) [] ;;
       for_each (only_in_default r) (fun t =>
         print "Key: {}" [VStr (fst t)] ;;
         print "  Value: {}" [snd t] ;;
         print "" [])
   end) ;;
  (match same_values r with
   | [] => ret tt
   | _ =>
       print "UNCHANGED VALUES: {} settings match between default and customer config"
         [nat_value (List.length (same_values r))]
   end) ;;
  print (rule "=" 50) [] ;;
  print "SUMMARY:" [] ;;
  print "  Overridden values: {}" [nat_value (List.length (different_values r))] ;;
  print "  Customer-only settings: {}" [nat_value (List.length (only_in_customer r))] ;;
  print "  Default-only settings: {}" [nat_value (List.length (only_in_default r))] ;;
  print "  Unchanged values: {}" [nat_value (List.length (same_values r))].

Definition is_none (v : value) : bool :=
  match v with VNone => true | _ => false end.

Definition compare_configs (default_config customer_config : value) : M unit :=
  print (rule "=" 80) [] ;;
  print "HARNESS CONFIGURATION COMPARISON" [] ;;
  print (rule "=" 80) [] ;;
  customer_data <- py_get customer_config "data" (VDict []) ;;
  default_data <- py_get default_config "data" (VDict []) ;;
  if negb (truthy customer_data) || is_none customer_data then
    print "RESULT: Customer config is using DEFAULT configuration (no overrides)" [] ;;
    print "Default configuration:" [] ;;
    print "{json}" [default_data]
  else
    print "COMPARISON RESULTS:" [] ;;
    print "Customer config has overrides. Analyzing differences..." [] ;;
    flat_default <- flatten_data default_data ;;
    flat_customer <- flatten_data customer_data ;;
    display (diff flat_default flat_customer).

(** The lines of the report that only the key-level comparison prints. *)
Definition diffing_line (e : event) : bool :=
  match e with
  | Print text _ =>
      existsb (String.eqb text)
        ["COMPARISON RESULTS:";
         "Customer config has overrides. Analyzing differences...";
         "OVERRIDDEN VALUES:"; "CUSTOMER-ONLY SETTINGS:";
         "DEFAULT-ONLY SETTINGS (not overridden):";
         "UNCHANGED VALUES: {} settings match between default and customer config";
         "SUMMARY:"; "  Overridden values: {}"; "  Customer-only settings: {}";
         "  Default-only settings: {}"; "  Unchanged values: {}"]
  | Request _ _ _ _ => false
  end.

Module CompareConfig.
Section Network.
(** [requests.get(url, params=params, headers=headers)] followed by
    [raise_for_status()] and [json()] *)
Variable requests_get : string -> dict -> dict -> reply.
Variable env : environ.

Definition base_url : string :=
  "https://app.harness.io/gateway/ci/execution-config".

Definition get_harness_config (endpoint_type : string) : M value :=
  let account_id := HARNESS_ACCT_ID env in
  let api_key := HARNESS_API_TOKEN env in
  if unset account_id || unset api_key then raise ValueError else
  url_params <-
    (if (endpoint_type =? "default")%string then
       ret ((base_url ++ "/get-default-config")%string,
            [("accountIdentifier", env_value account_id); ("infra", VStr "K8")])
     else if (endpoint_type =? "customer")%string then
       ret ((base_url ++ "/get-customer-config")%string,
            [("accountIdentifier", env_value account_id); ("infra", VStr "K8");
             ("overridesOnly", VStr "true")])
     else raise ValueError) ;;
  let headers := [("X-API-KEY", env_value api_key)] in
  match requests_get (fst url_params) (snd url_params) headers with
  | Body v =>
      ([Request "GET" (fst url_params) (snd url_params) (Some (VDict headers))],
       Ok v)
  | Failure _ =>
      ([Request "GET" (fst url_params) (snd url_params) (Some (VDict headers));
        Print "Error fetching {} config: {}" [VStr endpoint_type]],
       Ok (VDict []))
  end.

Definition main : M unit :=
  print "Fetching Harness configurations..." [] ;;
  print "Fetching default config..." [] ;;
  default_config <- get_harness_config "default" ;;
  print "Fetching customer config..." [] ;;
  customer_config <- get_harness_config "customer" ;;
  if negb (truthy default_config) || negb (truthy customer_config) then
    print "Failed to fetch one or both configurations. Please check your credentials and network connection." []
  else
    compare_configs default_config customer_config.
End Network.
End CompareConfig.

(** ** getHarnessSupportImagesCustomerConfig.py: the whole script *)
Module SupportImages.
Section Network.
Variable requests_get : string -> dict -> dict -> reply.
Variable env : environ.

Definition url : string :=
  "https://app.harness.io/gateway/ci/execution-config/get-customer-config".

Definition main : M unit :=
  let account_id := HARNESS_ACCT_ID env in
  let api_key := HARNESS_API_TOKEN env in
  let params := [("accountIdentifier", env_value account_id);
                 ("infra", VStr "K8"); ("overridesOnly", VStr "true")] in
  let headers := [("X-API-KEY", env_value api_key)] in
  match requests_get url params headers with
  | Body v =>
      ([Request "GET" url params (Some (VDict headers));
        Print "Status Code: {}" []; Print "Response:" []; Print "{json}" [v]],
       Ok tt)
  | Failure _ =>
      ([Request "GET" url params (Some (VDict headers));
        Print "Error making request: {}" []],
       Ok tt)
  end.
End Network.
End SupportImages.

(** ** The API client (pipelinesByOrg.py, pipelineAppIDs.py) *)

(** [try: m except Exception: h]; [SystemExit] is no [Exception]. *)
Definition try_except {A} (m : M A) (h : exn -> M A) : M A :=
  match m with
  | (t, Raised (SystemExit c)) => (t, Raised (SystemExit c))
  | (t, Raised e) => let (t', r) := h e in (t ++ t', r)
  | _ => m
  end.

(** [list.extend(v)]: the elements [v] yields when iterated, a [TypeError]
    when it cannot be. *)
Definition py_iter (v : value) : M (list value) :=
  match v with
  | VList l => ret l
  | VStr s => ret (map (fun c => VStr (String c EmptyString)) (list_ascii_of_string s))
  | VDict d => ret (map VStr (keys d))
  | _ => raise TypeError
  end.

(** [len(v)], a [TypeError] when [v] has no length *)
Definition py_len (v : value) : M nat :=
  match v with
  | VList l => ret (List.length l)
  | VStr s => ret (String.length s)
  | VDict d => ret (List.length d)
  | _ => raise TypeError
  end.

Record client : Type := mkClient {
  api_token : string;
  account_id : option string;
  base_url : string
}.

(** The URL [_make_request] builds in both files. *)
Definition request_url (self : client) (endpoint : string) : string :=
  if String.prefix "/pipeline/api/" endpoint
  then base_url self ++ endpoint
  else base_url self ++ "/ng/api" ++ endpoint.

Section Walker.
(** [self._make_request], which differs between the two files *)
Variable make_request : string -> string -> dict -> option value -> M value.
Variable self : client.

(** One turn of [while True] in [get_organizations], lines 104 to 121 of
    pipelinesByOrg.py and 102 to 118 of pipelineAppIDs.py: [inl] is
    [break], [inr] the list carried into the next turn. *)
Definition organizations_page (params : dict) (page : nat)
    (organizations : list value) : M (list value + list value) :=
  let params := dict_set params "pageIndex" (nat_value page) in
  response <- make_request "GET" "/organizations" params None ;;
  if negb (truthy response) then ret (inl organizations) else
  data <- py_get response "data" VNone ;;
  if negb (truthy data) then ret (inl organizations) else
  content <- py_get data "content" VNone ;;
  if negb (truthy content) then ret (inl organizations) else
  more <- py_iter content ;;
  let organizations := organizations ++ more in
  last <- py_get data "last" (VBool true) ;;
  if truthy last then ret (inl organizations) else ret (inr organizations).

(** the loop, cut after [fuel] turns *)
Fixpoint organizations_loop (fuel : nat) (params : dict) (page : nat)
    (organizations : list value) : M (list value) :=
  match fuel with
  | 0 => ([], OutOfFuel)
  | S fuel' =>
      r <- organizations_page params page organizations ;;
      match r with
      | inl organizations => ret organizations
      | inr organizations =>
          organizations_loop fuel'
            (dict_set params "pageIndex" (nat_value page)) (S page)
            organizations
      end
  end.

Definition organizations_params : dict :=
  [("accountIdentifier", env_value (account_id self));
   ("pageIndex", VInt 0); ("pageSize", VInt 100)].

Definition get_organizations (fuel : nat) : M (list value) :=
  organizations_loop fuel organizations_params 0 [].
End Walker.

Section ProjectsWalker.
Variable make_request : string -> string -> dict -> option value -> M value.
Variable self : client.

(** One turn of [while True] in [get_projects_in_org], lines 146 to 163 of
    pipelinesByOrg.py and 135 to 151 of pipelineAppIDs.py. *)
Definition projects_page (params : dict) (page : nat)
    (projects : list value) : M (list value + list value) :=
  let params := dict_set params "pageIndex" (nat_value page) in
  response <- make_request "GET" "/projects" params None ;;
  if negb (truthy response) then ret (inl projects) else
  data <- py_get response "data" VNone ;;
  if negb (truthy data) then ret (inl projects) else
  content <- py_get data "content" VNone ;;
  if negb (truthy content) then ret (inl projects) else
  more <- py_iter content ;;
  let projects := projects ++ more in
  last <- py_get data "last" (VBool true) ;;
  if truthy last then ret (inl projects) else ret (inr projects).

Fixpoint projects_loop (fuel : nat) (params : dict) (page : nat)
    (projects : list value) : M (list value) :=
  match fuel with
  | 0 => ([], OutOfFuel)
  | S fuel' =>
      r <- projects_page params page projects ;;
      match r with
      | inl projects => ret projects
      | inr projects =>
          projects_loop fuel'
            (dict_set params "pageIndex" (nat_value page)) (S page) projects
      end
  end.

Definition projects_params (org_identifier : string) : dict :=
  [("accountIdentifier", env_value (account_id self));
   ("orgIdentifier", VStr org_identifier);
   ("pageIndex", VInt 0); ("pageSize", VInt 100)].

Definition get_projects_in_org (fuel : nat) (org_identifier : string)
    : M (list value) :=
  projects_loop fuel (projects_params org_identifier) 0 [].
End ProjectsWalker.

(** The query of the request for page [page] of the projects. *)
Definition project_page_params (self : client) (org_identifier : string)
    (page : nat) : dict :=
  [("accountIdentifier", env_value (account_id self));
   ("orgIdentifier", VStr org_identifier);
   ("pageIndex", nat_value page); ("pageSize", VInt 100)].

(** The query of the request for page [page]. *)
Definition page_params (self : client) (page : nat) : dict :=
  [("accountIdentifier", env_value (account_id self));
   ("pageIndex", nat_value page); ("pageSize", VInt 100)].

(** [ceil(total / pageSize)] *)
Definition pages_needed (total pageSize : nat) : nat :=
  (total + pageSize - 1) / pageSize.

(** A well-behaved server holding [all] items and serving pages of
    [pageSize]: whatever page is asked, the request fails or the response
    carries as its content list that page of the items (empty past the
    end); the last-page flag is left free. *)
Definition page_of (all : list value) (pageSize page : nat) : list value :=
  firstn pageSize (skipn (page * pageSize) all).

Definition well_behaved (server : nat -> reply) (all : list value)
    (pageSize : nat) : Prop :=
  forall page,
    (exists st, server page = Failure st) \/
    (exists resp data,
        server page = Body (VDict resp) /\
        dict_get "data" resp = Some (VDict data) /\
        dict_get "content" data = Some (VList (page_of all pageSize page))).

Record approach : Type := mkApproach {
  name : option string;
  method : string;
  endpoint : string;
  data : option value;
  params : dict
}.

Module ByOrg.
Section Client.
Variable session_request : string -> string -> dict -> option value -> reply.
Variable self : client.

Definition _make_request (method endpoint : string) (params : dict)
    (data : option value) : M value :=
  let url := request_url self endpoint in
  match session_request method url params data with
  | Body v => ([Request method url params data], Ok v)
  | Failure status =>
      ([Request method url params data;
        Print "API request failed: {}" []]
       ++ match status with
          | None => []
          | Some code =>
              Print "Response status: {}" [nat_value code]
              :: (if (code =? 404)%nat then []
                  else [Print "Response text: {}" []])
          end,
       Ok VNone)
  end.

Definition get_organizations (fuel : nat) : M (list value) :=
  get_organizations _make_request self fuel.

Definition get_projects_in_org (fuel : nat) (org_identifier : string)
    : M (list value) :=
  get_projects_in_org _make_request self fuel org_identifier.

Definition approaches (org_identifier project_identifier : string)
    : list approach :=
  [ mkApproach (Some "POST /pipeline/api/pipelines/list") "POST"
      "/pipeline/api/pipelines/list"
      (Some (VDict [("filterType", VStr "PipelineSetup")]))
      [("accountIdentifier", env_value (account_id self));
       ("orgIdentifier", VStr org_identifier);
       ("projectIdentifier", VStr project_identifier);
       ("page", VInt 0); ("size", VInt 100)];
    mkApproach (Some "GET /pipelines with query params") "GET" "/pipelines" None
      [("accountIdentifier", env_value (account_id self));
       ("orgIdentifier", VStr org_identifier);
       ("projectIdentifier", VStr project_identifier);
       ("page", VInt 0); ("limit", VInt 100)];
    mkApproach (Some "POST /ng/api/pipelines/list") "POST" "/pipelines/list"
      (Some (VDict [("filterType", VStr "PipelineSetup")]))
      [("accountIdentifier", env_value (account_id self));
       ("orgIdentifier", VStr org_identifier);
       ("projectIdentifier", VStr project_identifier)] ].

(** Lines 235 to 252, the body of [if response:]: [Some] is the value
    returned, [None] falls out of the [if] chain to the next approach. *)
Definition pick_items (response : value) : M (option value) :=
  data <- py_get response "data" response ;;
  match data with
  | VList l =>
      print "Success! Found {} pipelines" [nat_value (List.length l)] ;;
      ret (Some data)
  | VDict d =>
      let content := dict_get_default "content" VNone d in
      let pipelines := dict_get_default "pipelines" VNone d in
      if truthy content then
        n <- py_len content ;;
        print "Success! Found {} pipelines" [nat_value n] ;;
        ret (Some content)
      else if truthy pipelines then
        n <- py_len pipelines ;;
        print "Success! Found {} pipelines" [nat_value n] ;;
        ret (Some pipelines)
      else if dict_mem "totalElements" d then
        print "Success! Found {} total pipelines"
          [dict_get_default "totalElements" (VInt 0) d] ;;
        ret (Some (dict_get_default "content" (VList []) d))
      else
        print "Unexpected response structure: {}" [VList (map VStr (keys d))] ;;
        ret None
  | _ => raise AttributeError
  end.

(** one turn of [for approach in approaches], lines 222 to 256 *)
Definition attempt (a : approach) : M (option value) :=
  try_except
    (response <- _make_request (method a) (endpoint a) (params a) (data a) ;;
     if truthy response then pick_items response else ret None)
    (fun e => print "Failed: {}" [] ;; ret None).

Fixpoint try_approaches (project_identifier : string) (l : list approach)
    : M value :=
  match l with
  | [] =>
      print "All approaches failed for project {}" [VStr project_identifier] ;;
      ret (VList [])
  | a :: rest =>
      r <- attempt a ;;
      match r with
      | Some found => ret found
      | None => try_approaches project_identifier rest
      end
  end.

Definition get_pipelines_in_project (org_identifier project_identifier : string)
    : M value :=
  try_approaches project_identifier
    (approaches org_identifier project_identifier).
End Client.

Section Main.
Variable session_request : string -> string -> dict -> option value -> reply.
Variable env : environ.
(** lines 301 to 368 of [main]: the per-organization loops and the summary *)
Variable report : client -> list value -> M unit.

Definition BASE_URL : string := "https://app.harness.io".

(** [main], lines 262 to 299, then [report] *)
Definition main (fuel : nat) : M unit :=
  let API_TOKEN := HARNESS_API_TOKEN env in
  let ACCOUNT_ID := HARNESS_ACCT_ID env in
  if unset API_TOKEN then
    print "HARNESS_API_TOKEN environment variable is not set." [] ;;
    print "To set your API token:" [] ;;
    print "  export HARNESS_API_TOKEN='your_harness_api_token_here'" [] ;;
    print "To get your API token:" [] ;;
    print "1. Go to Harness UI > Account Settings > Access Control > API Keys" [] ;;
    print "2. Create a new Personal Access Token or Service Account token" [] ;;
    raise (SystemExit 1)
  else if match ACCOUNT_ID with
          | Some s => (s =? "your_account_id_here")%string
          | None => false
          end then
    print "Please update the ACCOUNT_ID in the script before running." [] ;;
    print "To get your Account ID:" [] ;;
    print "1. Look in the URL when logged into Harness" [] ;;
    print "2. Or check Account Settings in the Harness UI" [] ;;
    raise (SystemExit 1)
  else
    let client :=
      mkClient (match API_TOKEN with Some s => s | None => "" end)
        ACCOUNT_ID BASE_URL in
    print "Starting pipeline count analysis..." [] ;;
    print "Account ID: {}" [env_value ACCOUNT_ID] ;;
    print (rule "=" 50) [] ;;
    print "Fetching organizations..." [] ;;
    organizations <- get_organizations session_request client fuel ;;
    match organizations with
    | [] =>
        print "No organizations found or API call failed." [] ;;
        raise (SystemExit 1)
    | _ =>
        print "Found {} organizations"
          [nat_value (List.length organizations)] ;;
        report client organizations
    end.
End Main.
End ByOrg.

Module AppIDs.
Section Client.
Variable session_request : string -> string -> dict -> option value -> reply.
Variable self : client.

Definition _make_request (method endpoint : string) (params : dict)
    (data : option value) : M value :=
  let url := request_url self endpoint in
  match session_request method url params data with
  | Body v => ([Request method url params data], Ok v)
  | Failure status =>
      (Request method url params data
       :: match status with
          | None => []
          | Some code =>
              if (code =? 404)%nat then []
              else [Print "API request failed: {}" [];
                    Print "Response status: {}" [nat_value code]]
          end,
       Ok VNone)
  end.

Definition get_organizations (fuel : nat) : M (list value) :=
  get_organizations _make_request self fuel.

Definition get_projects_in_org (fuel : nat) (org_identifier : string)
    : M (list value) :=
  get_projects_in_org _make_request self fuel org_identifier.

Definition approaches (org_identifier project_identifier : string)
    : list approach :=
  [ mkApproach None "POST" "/pipeline/api/pipelines/list"
      (Some (VDict [("filterType", VStr "PipelineSetup")]))
      [("accountIdentifier", env_value (account_id self));
       ("orgIdentifier", VStr org_identifier);
       ("projectIdentifier", VStr project_identifier);
       ("page", VInt 0); ("size", VInt 100)];
    mkApproach None "GET" "/pipelines" None
      [("accountIdentifier", env_value (account_id self));
       ("orgIdentifier", VStr org_identifier);
       ("projectIdentifier", VStr project_identifier);
       ("page", VInt 0); ("limit", VInt 100)] ].

(** lines 196 to 203, the body of [if response:] *)
Definition pick_items (response : value) : M (option value) :=
  data <- py_get response "data" response ;;
  match data with
  | VList _ => ret (Some data)
  | VDict d =>
      let content := dict_get_default "content" VNone d in
      let pipelines := dict_get_default "pipelines" VNone d in
      if truthy content then ret (Some content)
      else if truthy pipelines then ret (Some pipelines)
      else ret None
  | _ => raise AttributeError
  end.

(** one turn of [for approach in approaches], lines 186 to 206 *)
Definition attempt (a : approach) : M (option value) :=
  try_except
    (response <- _make_request (method a) (endpoint a) (params a) (data a) ;;
     if truthy response then pick_items response else ret None)
    (fun e => ret None).

Fixpoint try_approaches (l : list approach) : M value :=
  match l with
  | [] => ret (VList [])
  | a :: rest =>
      r <- attempt a ;;
      match r with
      | Some found => ret found
      | None => try_approaches rest
      end
  end.

Definition get_pipelines_in_project (org_identifier project_identifier : string)
    : M value :=
  try_approaches (approaches org_identifier project_identifier).
End Client.

Section PipelineYaml.
Variable session_request : string -> string -> dict -> option value -> reply.
Variable self : client.
(** [yaml.dump(v, default_flow_style=False)], [None] when it raises *)
Variable yaml_dump : value -> option string.

(** Lines 238 to 260, the body of [if response:]: [Some] is the value
    returned, [None] goes on to the next endpoint. *)
Definition pick_yaml (response : value) : M (option value) :=
  data <- py_get response "data" response ;;
  match data with
  | VDict d =>
      if dict_mem "yamlPipeline" d then
        ret (Some (dict_get_default "yamlPipeline" VNone d))
      else if dict_mem "yaml" d then
        ret (Some (dict_get_default "yaml" VNone d))
      else if dict_mem "pipelineYaml" d then
        ret (Some (dict_get_default "pipelineYaml" VNone d))
      else if dict_mem "pipeline" d then
        match yaml_dump (dict_get_default "pipeline" VNone d) with
        | Some text => ret (Some (VStr text))
        | None => ret None
        end
      else
        match yaml_dump data with
        | Some text => ret (Some (VStr text))
        | None => ret None
        end
  | _ => ret None
  end.

(** the loop [for endpoint in endpoints], lines 234 to 262 *)
Fixpoint try_endpoints (params : dict) (l : list string) : M value :=
  match l with
  | [] => ret VNone
  | endpoint :: rest =>
      response <- _make_request session_request self "GET" endpoint params None ;;
      r <- (if truthy response then pick_yaml response else ret None) ;;
      match r with
      | Some found => ret found
      | None => try_endpoints params rest
      end
  end.

Definition yaml_params (org_identifier project_identifier : string) : dict :=
  [("accountIdentifier", env_value (account_id self));
   ("orgIdentifier", VStr org_identifier);
   ("projectIdentifier", VStr project_identifier)].

Definition get_pipeline_yaml
    (org_identifier project_identifier pipeline_identifier : string) : M value :=
  try_endpoints (yaml_params org_identifier project_identifier)
    [("/pipelines/" ++ pipeline_identifier)%string;
     ("/pipeline/api/pipelines/" ++ pipeline_identifier)%string].
End PipelineYaml.

Section Main.
Variable session_request : string -> string -> dict -> option value -> reply.
Variable env : environ.
(** lines 356 to 455 of [main]: the loops over organizations, projects and
    pipelines, and the report *)
Variable report : client -> list value -> M unit.

Definition BASE_URL : string := "https://app.harness.io".

(** [main], lines 323 to 354, then [report] *)
Definition main (fuel : nat) : M unit :=
  let API_TOKEN := HARNESS_API_TOKEN env in
  let ACCOUNT_ID := HARNESS_ACCT_ID env in
  if unset API_TOKEN then
    print "HARNESS_API_TOKEN environment variable is not set." [] ;;
    print "To set your API token:" [] ;;
    print "  export HARNESS_API_TOKEN='your_harness_api_token_here'" [] ;;
    raise (SystemExit 1)
  else if unset ACCOUNT_ID then
    print "HARNESS_ACCT_ID environment variable is not set." [] ;;
    print "To set your account ID:" [] ;;
    print "  export HARNESS_ACCT_ID='your_harness_account_id_here'" [] ;;
    raise (SystemExit 1)
  else
    let client :=
      mkClient (match API_TOKEN with Some s => s | None => "" end)
        ACCOUNT_ID BASE_URL in
    print "Starting pipeline appID analysis..." [] ;;
    print "Account ID: {}" [env_value ACCOUNT_ID] ;;
    print (rule "=" 70) [] ;;
    print "Fetching organizations..." [] ;;
    organizations <- get_organizations session_request client fuel ;;
    match organizations with
    | [] =>
        print "No organizations found or API call failed." [] ;;
        raise (SystemExit 1)
    | _ =>
        print "Found {} organizations"
          [nat_value (List.length organizations)] ;;
        report client organizations
    end.
End Main.

(** *** The appID extractor *)

(** A document as [yaml.safe_load] builds it: the keys of a mapping are
    scalars, not only strings. *)
Inductive ykey : Type :=
| KNone
| KBool (b : bool)
| KInt (n : Z)
| KStr (s : string).

#[local] Unset Elimination Schemes.
Inductive yaml : Type :=
| YNone
| YBool (b : bool)
| YInt (n : Z)
| YStr (s : string)
| YSeq (l : list yaml)
| YMap (d : list (ykey * yaml)).
#[local] Set Elimination Schemes.

Inductive loaded : Type :=
| Loaded (doc : yaml)
| YAMLError.

Definition yaml_truthy (v : yaml) : bool :=
  match v with
  | YNone => false
  | YBool b => b
  | YInt n => negb (n =? 0)%Z
  | YStr s => negb (s =? "")%string
  | YSeq l => match l with [] => false | _ => true end
  | YMap d => match d with [] => false | _ => true end
  end.

(** [d.get(k)] for a string [k] *)
Fixpoint ymap_get (k : string) (d : list (ykey * yaml)) : option yaml :=
  match d with
  | [] => None
  | (KStr k', v) :: rest => if (k =? k')%string then Some v else ymap_get k rest
  | _ :: rest => ymap_get k rest
  end.

(** [c.lower()] on one character below 256 *)
Definition lower_char (c : ascii) : ascii :=
  let n := nat_of_ascii c in
  if ((65 <=? n) && (n <=? 90))%nat then ascii_of_nat (n + 32)
  else if ((192 <=? n) && (n <=? 222) && negb (n =? 215))%nat
  then ascii_of_nat (n + 32)
  else c.

(** [s.lower()] *)
Fixpoint lower (s : string) : string :=
  match s with
  | EmptyString => EmptyString
  | String c r => String (lower_char c) (lower r)
  end.

(** [sub in s] *)
Fixpoint contains (sub s : string) : bool :=
  String.prefix sub s ||
  match s with
  | EmptyString => false
  | String _ r => contains sub r
  end.

(** [\s]: the characters below 256 that are white space to [re] *)
Definition is_space (c : ascii) : bool :=
  let n := nat_of_ascii c in
  ((9 <=? n) && (n <=? 13) || (28 <=? n) && (n <=? 32)
   || (n =? 133) || (n =? 160))%nat.

(** the two quote characters of the patterns *)
Definition is_quote (c : ascii) : bool :=
  let n := nat_of_ascii c in ((n =? 34) || (n =? 39))%nat.

(** a character of a value token: no quote and no white space *)
Definition is_token_char (c : ascii) : bool :=
  negb (is_quote c) && negb (is_space c).

(** The text matches [key] without regard to case at its start: what is
    left after it. *)
Fixpoint match_key (key text : string) : option string :=
  match key, text with
  | EmptyString, _ => Some text
  | String k key', String c text' =>
      if Ascii.eqb (lower_char k) (lower_char c) then match_key key' text'
      else None
  | String _ _, EmptyString => None
  end.

Fixpoint skip_spaces (text : string) : string :=
  match text with
  | String c r => if is_space c then skip_spaces r else text
  | EmptyString => text
  end.

Definition skip_quote (text : string) : string :=
  match text with
  | String c r => if is_quote c then r else text
  | EmptyString => text
  end.

(** the longest run of token characters at the start, and the rest *)
Fixpoint take_token (text : string) : string * string :=
  match text with
  | String c r =>
      if is_token_char c
      then let (tok, rest) := take_token r in (String c tok, rest)
      else (EmptyString, text)
  | EmptyString => (EmptyString, text)
  end.

(** One try of a pattern at the start of the text (the key name, a colon,
    any white space, an optional quote, one or more token characters caught
    as the group, an optional quote): the token caught and what comes after
    the match.  Every step
    of the pattern takes as much as it can, and none can give back to the
    next what the next could take, so there is no backtracking to model. *)
Definition match_here (key text : string) : option (string * string) :=
  match match_key (key ++ ":") text with
  | None => None
  | Some after_key =>
      let (tok, rest) := take_token (skip_quote (skip_spaces after_key)) in
      match tok with
      | EmptyString => None
      | _ => Some (tok, skip_quote rest)
      end
  end.

(** [re.findall(pattern, text, re.IGNORECASE)]: matches from left to
    right, each search starting where the last match ended; [skip] counts
    the characters of the last match still to pass. *)
Fixpoint findall_from (key : string) (skip : nat) (text : string) : list string :=
  match text with
  | EmptyString => []
  | String _ r =>
      match skip with
      | S n => findall_from key n r
      | 0 =>
          match match_here key text with
          | Some (tok, rest) =>
              tok :: findall_from key (String.length text - String.length rest - 1) r
          | None => findall_from key 0 r
          end
      end
  end.

Definition findall (key text : string) : list string := findall_from key 0 text.

(** the key names of the five patterns, in order *)
Definition patterns : list string :=
  ["appid"; "app_id"; "appId"; "application_id"; "applicationId"].

(** a [set] of strings, each once *)
Definition set_add (x : string) (s : list string) : list string :=
  if existsb (String.eqb x) s then s else s ++ [x].

Definition set_update (s : list string) (l : list string) : list string :=
  fold_left (fun acc x => set_add x acc) l s.

(** the two loops [for pattern in patterns] *)
Definition scan (text : string) (app_ids : list string) : list string :=
  fold_left (fun acc key => set_update acc (findall key text)) patterns app_ids.

Section Extractor.
(** PyYAML's [yaml.safe_load] and [yaml.dump], and Python's [repr] of a
    sequence or mapping *)
Variable safe_load : string -> loaded.
Variable dump : yaml -> string.
Variable repr : yaml -> string.

(** [str(value)] *)
Definition str (value : yaml) : string :=
  match value with
  | YNone => "None"
  | YBool true => "True"
  | YBool false => "False"
  | YInt n => NilEmpty.string_of_int (Z.to_int n)
  | YStr s => s
  | _ => repr value
  end.

(** the loop [for key, value in tags.items()], lines 300 to 302 *)
Fixpoint scan_tags (tags : list (ykey * yaml)) (app_ids : list string)
    : result (list string) :=
  match tags with
  | [] => Ok app_ids
  | (key, value) :: rest =>
      match key with
      | KStr k =>
          if contains "appid" (lower k) || contains "app_id" (lower k)
          then scan_tags rest (set_add (str value) app_ids)
          else scan_tags rest app_ids
      | _ => Raised AttributeError
      end
  end.

Definition extract_app_ids_from_yaml (yaml_content : string)
    : result (list string) :=
  let app_ids := [] in
  match safe_load yaml_content with
  | Loaded yaml_data =>
      let yaml_str := if yaml_truthy yaml_data then dump yaml_data
                      else yaml_content in
      let app_ids := scan yaml_str app_ids in
      match yaml_data with
      | YMap d =>
          match match ymap_get "tags" d with
                | Some tags => tags
                | None => YMap []
                end with
          | YMap tags => scan_tags tags app_ids
          | _ => Ok app_ids
          end
      | _ => Ok app_ids
      end
  | YAMLError => Ok (scan yaml_content app_ids)
  end.
End Extractor.

(** The scenario of the spec: the text, the document PyYAML loads from it
    and the text PyYAML dumps for that document. *)
Definition nl : string := String (ascii_of_nat 10) EmptyString.
Definition dq : string := String (ascii_of_nat 34) EmptyString.

Definition scenario : string :=
  "tags:" ++ nl ++ "  appId: " ++ dq ++ "svc-42" ++ dq.
Definition scenario_doc : yaml :=
  YMap [(KStr "tags", YMap [(KStr "appId", YStr "svc-42")])].
Definition scenario_dump : string :=
  "tags:" ++ nl ++ "  appId: svc-42" ++ nl.

(** A document whose tags have a number as key, and its text. *)
Definition numbered_tag : string := "tags:" ++ nl ++ "  1: x".
Definition numbered_tag_doc : yaml :=
  YMap [(KStr "tags", YMap [(KInt 1, YStr "x")])].

(** every key of the tags is a string that names no appID *)
Fixpoint plain_tags (tags : list (ykey * yaml)) : bool :=
  match tags with
  | [] => true
  | (KStr k, _) :: rest =>
      negb (contains "appid" (lower k) || contains "app_id" (lower k))
      && plain_tags rest
  | _ => false
  end.

(** the [tags] the extractor walks, none when the document has no such
    mapping *)
Definition tags_of (doc : yaml) : list (ykey * yaml) :=
  match doc with
  | YMap d =>
      match ymap_get "tags" d with
      | Some (YMap tags) => tags
      | _ => []
      end
  | _ => []
  end.
End AppIDs.

(** *** The walker's contract, in the spec's terms *)

(** [response] as [_make_request] hands it on: [None] for a failure *)
Definition body (r : reply) : value :=
  match r with Body v => v | Failure _ => VNone end.

(** What a page fetch gives: nothing, a response without content list (or
    with an empty one), or a content list with the last-page flag, taken as
    true when the response has none. *)
Inductive page_result : Type :=
| Absent
| NoContent
| Page (content : list value) (last : bool).

(** A reply read as a page; [None] when it has not the shape of one (a
    response or a [data] field that is no mapping, a [content] field that is
    no list). *)
Definition read_page (r : reply) : option page_result :=
  let response := body r in
  if negb (truthy response) then Some Absent else
  match response with
  | VDict resp =>
      let data := dict_get_default "data" VNone resp in
      if negb (truthy data) then Some NoContent else
      match data with
      | VDict d =>
          let content := dict_get_default "content" VNone d in
          if negb (truthy content) then Some NoContent else
          match content with
          | VList l =>
              Some (Page l (truthy (dict_get_default "last" (VBool true) d)))
          | _ => None
          end
      | _ => None
      end
  | _ => None
  end.

(** the three stopping conditions of the spec *)
Definition spec_stops (p : page_result) : bool :=
  match p with
  | Absent => true
  | NoContent => true
  | Page _ last => last
  end.

Definition items_of (p : page_result) : list value :=
  match p with Page content _ => content | _ => [] end.

(** the request for page [page] of the organizations *)
Definition page_request (self : client) (page : nat) : event :=
  Request "GET" (request_url self "/organizations") (page_params self page) None.

Definition requests_of {A} (m : M A) : list event :=
  filter is_request (trace m).

(** The contract of [listAll]: [get_organizations] run against [server],
    the reply to the request for each page. *)
Definition walker_contract (self : client) (server : nat -> reply)
    (get_organizations : nat -> M (list value)) : Prop :=
  (* pages 0 to n are fetched, n being the first page that stops *)
  (forall (pages : nat -> page_result) n fuel,
      (forall p, p <= n -> read_page (server p) = Some (pages p)) ->
      (forall p, p < n -> spec_stops (pages p) = false) ->
      spec_stops (pages n) = true ->
      n < fuel ->
      requests_of (get_organizations fuel) = map (page_request self) (seq 0 (S n)) /\
      outcome (get_organizations fuel) =
        Ok (flat_map (fun p => items_of (pages p)) (seq 0 (S n)))) /\
  (* at most ceil(total / pageSize) + 1 calls on a well-behaved server *)
  (forall all fuel,
      well_behaved server all 100 ->
      pages_needed (List.length all) 100 + 1 <= fuel ->
      (exists organizations, outcome (get_organizations fuel) = Ok organizations) /\
      requests_sent (get_organizations fuel)
        <= pages_needed (List.length all) 100 + 1) /\
  (* one call when the first page says it is the last *)
  (forall content fuel,
      read_page (server 0) = Some (Page content true) ->
      1 <= fuel ->
      requests_sent (get_organizations fuel) = 1 /\
      outcome (get_organizations fuel) = Ok content).

(** the payload of a response: its [data] field, the response itself when
    it has none *)
Definition payload (resp : dict) : value :=
  dict_get_default "data" (VDict resp) resp.

(** A server for the examples: it holds [all] organizations and answers the
    request for a page with that page of them, without a last-page flag. *)
Definition paging_server (all : list value)
    (_ _ : string) (params : dict) (_ : option value) : reply :=
  let page := match dict_get "pageIndex" params with
              | Some (VInt z) => Z.to_nat z
              | _ => 0
              end in
  Body (VDict [("data", VDict [("content", VList (page_of all 100 page))])]).

Definition example_client : client :=
  mkClient "token" (Some "account") "https://app.harness.io".

(** what [get_harness_config] returns for a reply: [{}] on a failure *)
Definition fetched (r : reply) : value :=
  match r with Body v => v | Failure _ => VDict [] end.

(** the replies to the two requests of the comparison script *)
Definition default_reply (requests_get : string -> dict -> dict -> reply)
    (env : environ) : reply :=
  requests_get (CompareConfig.base_url ++ "/get-default-config")%string
    [("accountIdentifier", env_value (HARNESS_ACCT_ID env)); ("infra", VStr "K8")]
    [("X-API-KEY", env_value (HARNESS_API_TOKEN env))].

Definition customer_reply (requests_get : string -> dict -> dict -> reply)
    (env : environ) : reply :=
  requests_get (CompareConfig.base_url ++ "/get-customer-config")%string
    [("accountIdentifier", env_value (HARNESS_ACCT_ID env)); ("infra", VStr "K8");
     ("overridesOnly", VStr "true")]
    [("X-API-KEY", env_value (HARNESS_API_TOKEN env))].

(** A server that pages exactly: page [page] of the items as content list,
    and a last-page flag that is true from the page that reaches the end
    on. *)
Definition paging_exactly (server : nat -> reply) (all : list value) : Prop :=
  forall page, exists resp data,
    server page = Body (VDict resp) /\
    dict_get "data" resp = Some (VDict data) /\
    dict_get "content" data = Some (VList (page_of all 100 page)) /\
    dict_get "last" data
    = Some (VBool (List.length all <=? (page + 1) * 100)%nat).

(** an exact server for the examples *)
Definition exact_server (all : list value)
    (_ _ : string) (params : dict) (_ : option value) : reply :=
  let page := match dict_get "pageIndex" params with
              | Some (VInt z) => Z.to_nat z
              | _ => 0
              end in
  Body (VDict [("data",
                VDict [("content", VList (page_of all 100 page));
                       ("last",
                        VBool (List.length all <=? (page + 1) * 100)%nat)])]).

(** the request for page [page] of the projects of an organization *)
Definition project_request (self : client) (org_identifier : string)
    (page : nat) : event :=
  Request "GET" (request_url self "/projects")
    (project_page_params self org_identifier page) None.

(** The contract of a page walker whose request for page [page] is
    [request_for page]: the pages up to the first that stops are fetched and
    their content lists returned; at most ceil(total/100)+1 requests on a
    well-behaved server. *)
Definition pager_contract (request_for : nat -> event) (server : nat -> reply)
    (walker : nat -> M (list value)) : Prop :=
  (forall (pages : nat -> page_result) n fuel,
      (forall p, p <= n -> read_page (server p) = Some (pages p)) ->
      (forall p, p < n -> spec_stops (pages p) = false) ->
      spec_stops (pages n) = true ->
      n < fuel ->
      requests_of (walker fuel) = map request_for (seq 0 (S n)) /\
      outcome (walker fuel)
      = Ok (flat_map (fun p => items_of (pages p)) (seq 0 (S n)))) /\
  (forall all fuel,
      well_behaved server all 100 ->
      pages_needed (List.length all) 100 + 1 <= fuel ->
      (exists projects, outcome (walker fuel) = Ok projects) /\
      requests_sent (walker fuel) <= pages_needed (List.length all) 100 + 1).

(** an exception that [except Exception] catches, or a normal end *)
Definition catchable {A} (r : result A) : Prop :=
  match r with
  | Ok _ => True
  | Raised (SystemExit _) => False
  | Raised _ => True
  | OutOfFuel => False
  end.

(** every character of [s] satisfies [p] *)
Fixpoint all_chars (p : ascii -> bool) (s : string) : bool :=
  match s with
  | EmptyString => true
  | String c r => p c && all_chars p r
  end.

(** every key of a mapping is a string *)
Definition string_keys (d : list (AppIDs.ykey * AppIDs.yaml)) : bool :=
  forallb (fun kv => match fst kv with AppIDs.KStr _ => true | _ => false end) d.

(** the [patterns] without the third, which only differs from the first in
    the case of a letter *)
Definition patterns_without_appId : list string :=
  ["appid"; "app_id"; "application_id"; "applicationId"].

(* ================================================================== *)
(** * Part II: properties *)
(* ================================================================== *)

(** ** Induction on values *)

Section ValueInd.
Variable P : value -> Prop.
Hypothesis HNone : P VNone.
Hypothesis HBool : forall b, P (VBool b).
Hypothesis HInt : forall n, P (VInt n).
Hypothesis HStr : forall s, P (VStr s).
Hypothesis HList : forall l, Forall P l -> P (VList l).
Hypothesis HDict : forall d, Forall (fun kv => P (snd kv)) d -> P (VDict d).

Fixpoint value_ind' (v : value) : P v :=
  match v with
  | VNone => HNone
  | VBool b => HBool b
  | VInt n => HInt n
  | VStr s => HStr s
  | VList l =>
      HList l
        ((fix all (l : list value) : Forall P l :=
            match l with
            | [] => Forall_nil _
            | x :: r => Forall_cons x (value_ind' x) (all r)
            end) l)
  | VDict d =>
      HDict d
        ((fix all (d : list (string * value))
            : Forall (fun kv => P (snd kv)) d :=
            match d with
            | [] => Forall_nil _
            | kv :: r => Forall_cons kv (value_ind' (snd kv)) (all r)
            end) d)
  end.
End ValueInd.

(** ** Dictionaries *)


Lemma dict_mem_keys k d : dict_mem k d = true <-> In k (keys d).
Proof.
  unfold dict_mem.
  induction d as [|[k' v'] d IH]; simpl.
  - split; [discriminate | tauto].
  - destruct (String.eqb_spec k k') as [->|].
    + split; auto.
    + rewrite IH. split; [tauto | intros [E|H]; congruence].
Qed.

Lemma dict_mem_false k d : dict_mem k d = false <-> ~ In k (keys d).
Proof.
  rewrite <- dict_mem_keys. destruct (dict_mem k d); split; congruence.
Qed.


Lemma dict_set_In d k v kv :
  In kv (dict_set d k v) -> kv = (k, v) \/ In kv d.
Proof.
  induction d as [|[k' v'] d IH]; simpl.
  - intros [<-|[]]. now left.
  - destruct (String.eqb_spec k k') as [->|]; simpl.
    + intros [<-|H]; auto.
    + intros [<-|H]; auto. destruct (IH H); auto.
Qed.

Lemma dict_set_keys d k v k0 :
  In k0 (keys (dict_set d k v)) <-> k0 = k \/ In k0 (keys d).
Proof.
  induction d as [|[k' v'] d IH]; simpl.
  - intuition.
  - destruct (String.eqb_spec k k') as [->|]; simpl.
    + intuition.
    + rewrite IH. intuition.
Qed.

Lemma dict_set_NoDup d k v : NoDup (keys d) -> NoDup (keys (dict_set d k v)).
Proof.
  induction d as [|[k' v'] d IH]; simpl; intros ND.
  - constructor; [tauto | constructor].
  - inversion ND as [|? ? Hn ND']; subst.
    destruct (String.eqb_spec k k') as [->|]; simpl.
    + now constructor.
    + constructor; [|auto].
      fold (keys (dict_set d k v)). rewrite dict_set_keys.
      intros [E|H]; [congruence | auto].
Qed.

Section DictOfItems.
Let step := fun (acc : dict) (kv : string * value) =>
              dict_set acc (fst kv) (snd kv).

Lemma fold_set_In l : forall acc kv,
  In kv (fold_left step l acc) -> In kv acc \/ In kv l.
Proof.
  induction l as [|[k v] l IH]; simpl; intros acc kv H; [auto|].
  destruct (IH _ _ H) as [H'|H']; [|auto].
  destruct (dict_set_In _ _ _ _ H') as [->|]; auto.
Qed.

Lemma fold_set_keys l : forall acc k,
  In k (keys (fold_left step l acc)) <-> In k (keys acc) \/ In k (map fst l).
Proof.
  induction l as [|[k v] l IH]; simpl; intros acc k0; [tauto|].
  rewrite IH. unfold step. simpl. rewrite dict_set_keys.
  intuition.
Qed.

Lemma fold_set_NoDup l : forall acc,
  NoDup (keys acc) -> NoDup (keys (fold_left step l acc)).
Proof.
  induction l as [|[k v] l IH]; simpl; intros acc ND; [auto|].
  apply IH. now apply dict_set_NoDup.
Qed.
End DictOfItems.

Lemma dict_of_items_In l kv : In kv (dict_of_items l) -> In kv l.
Proof.
  intros H. destruct (fold_set_In _ _ _ H) as [[]|]; auto.
Qed.

Lemma dict_of_items_keys l k :
  In k (keys (dict_of_items l)) <-> In k (map fst l).
Proof.
  unfold dict_of_items. rewrite fold_set_keys. simpl. tauto.
Qed.

Lemma dict_of_items_NoDup l : NoDup (keys (dict_of_items l)).
Proof. apply fold_set_NoDup. constructor. Qed.

(** ** The config flattener *)

Lemma new_key_spec p sep k : new_key p sep k = spec_prefix p sep k.
Proof. unfold new_key. now destruct p. Qed.

Lemma flatten_dict_eq d p sep :
  flatten_dict d p sep =
  dict_of_items
    (flatten_members (fun v key => flatten_value v key sep) p sep d).
Proof. reflexivity. Qed.

Lemma flatten_value_dict d p sep :
  flatten_value (VDict d) p sep = flatten_dict d p sep.
Proof. reflexivity. Qed.

Section LoopFacts.
Variable rec : value -> string -> items.

Lemma flatten_elements_In key l : forall i kx,
  In kx (flatten_elements rec key i l) <->
  exists j item,
    nth_error l j = Some item /\
    In kx (if is_dict item
           then rec item (index_key key (i + j))
           else [(index_key key (i + j), item)]).
Proof.
  induction l as [|a l IH]; simpl; intros i kx.
  - split; [tauto|]. intros (j & item & H & _). now destruct j.
  - rewrite in_app_iff, IH. split.
    + intros [H|(j & item & Hj & H)].
      * exists 0, a. now rewrite Nat.add_0_r.
      * exists (S j), item. now rewrite Nat.add_succ_r.
    + intros ([|j] & item & Hj & H); simpl in Hj.
      * injection Hj as <-. rewrite Nat.add_0_r in H. now left.
      * right. exists j, item. now rewrite Nat.add_succ_r in H.
Qed.

Lemma flatten_members_In p sep d kx :
  In kx (flatten_members rec p sep d) <->
  exists k v, In (k, v) d /\ In kx (flatten_member rec (new_key p sep k) v).
Proof.
  induction d as [|[k v] d IH]; simpl.
  - split; [tauto|]. now intros (? & ? & [] & _).
  - rewrite in_app_iff, IH. split.
    + intros [H|(k' & v' & Hin & H)]; eauto 6.
    + intros (k' & v' & [E|Hin] & H).
      * injection E as <- <-. now left.
      * right; eauto.
Qed.

Lemma flatten_members_app p sep d1 d2 :
  flatten_members rec p sep (d1 ++ d2) =
  flatten_members rec p sep d1 ++ flatten_members rec p sep d2.
Proof.
  induction d1 as [|[k v] d1 IH]; simpl; [reflexivity|].
  now rewrite IH, app_assoc.
Qed.
End LoopFacts.

(** Every pair of the flattened mapping is reached by the spec's rule. *)
Lemma flatten_dict_sound sep d : forall p key x,
  In (key, x) (flatten_dict d p sep) -> spec_path sep p d key x.
Proof.
  pose (Q := fun v => forall d, v = VDict d -> forall p key x,
               In (key, x) (flatten_dict d p sep) -> spec_path sep p d key x).
  assert (H : forall v, Q v /\ (forall l, v = VList l -> Forall Q l)).
  { induction v as [| | | |l IH|d0 IH] using value_ind';
      try solve [split; [intros ? [=] | intros ? [=]]].
    - split; [intros ? [=]|]. intros l' [= <-].
      eapply Forall_impl; [|exact IH]. now intros a [Ha _].
    - split; [|intros ? [=]]. intros d' [= <-] p key x Hin.
      rewrite flatten_dict_eq in Hin. apply dict_of_items_In in Hin.
      apply flatten_members_In in Hin as (k & v & Hd & Hm).
      rewrite new_key_spec in Hm.
      rewrite Forall_forall in IH. specialize (IH _ Hd). simpl in IH.
      destruct IH as [Qv Ql].
      destruct v as [| b | n | s | l | d']; simpl in Hm;
        try (destruct Hm as [[= <- <-]|[]]; now apply path_member).
      + apply flatten_elements_In in Hm as (j & item & Hj & Hm).
        simpl in Hm. specialize (Ql _ eq_refl).
        rewrite Forall_forall in Ql.
        specialize (Ql _ (nth_error_In _ _ Hj)).
        destruct item as [| b | n | s | l' | d'']; simpl in Hm;
          try (destruct Hm as [[= <- <-]|[]];
               now apply path_element with (l := l)).
        eapply path_element_mapping; eauto.
      + eapply path_mapping; eauto. }
  intros p key x. apply (proj1 (H (VDict d))). reflexivity.
Qed.

(** Every path of the spec's rule is a key of the flattened mapping. *)
Lemma flatten_dict_complete sep p d key x :
  spec_path sep p d key x -> dict_mem key (flatten_dict d p sep) = true.
Proof.
  intros H. apply dict_mem_keys.
  induction H as [p d k v Hin Hd Hl
                 |p d k d' key x Hin _ IH
                 |p d k l i item Hin Hi Hd
                 |p d k l i d' key x Hin Hi _ IH];
    rewrite flatten_dict_eq, dict_of_items_keys;
    [ change (spec_prefix p sep k) with (fst (spec_prefix p sep k, v))
    | apply in_map_iff in IH as ([key' x'] & <- & IH)
    | change (index_key (spec_prefix p sep k) i)
        with (fst (index_key (spec_prefix p sep k) i, item))
    | apply in_map_iff in IH as ([key' x'] & <- & IH) ];
    apply in_map; apply flatten_members_In;
    eexists; eexists; (split; [exact Hin|]); rewrite new_key_spec.
  - destruct v; simpl in *; try discriminate; now left.
  - exact IH.
  - simpl. apply flatten_elements_In. exists i, item. split; [exact Hi|].
    rewrite Hd. now left.
  - simpl. apply flatten_elements_In. exists i, (VDict d').
    split; [exact Hi|]. exact IH.
Qed.

Lemma spec_path_not_dict sep p d key x :
  spec_path sep p d key x -> is_dict x = false.
Proof. induction 1; auto. Qed.

Lemma spec_path_scalar sep p d key x :
  spec_path sep p d key x ->
  no_list_in_list (VDict d) = true -> is_scalar x = true.
Proof.
  induction 1 as [p d k v Hin Hd Hl
                 |p d k d' key x Hin _ IH
                 |p d k l i item Hin Hi Hd
                 |p d k l i d' key x Hin Hi _ IH]; simpl; intros Hn;
    rewrite forallb_forall in Hn; specialize (Hn _ Hin); simpl in Hn.
  - destruct v; simpl in *; congruence.
  - auto.
  - rewrite forallb_forall in Hn.
    specialize (Hn _ (nth_error_In _ _ Hi)).
    apply andb_prop in Hn as [Hn _].
    destruct item; simpl in *; congruence.
  - rewrite forallb_forall in Hn.
    specialize (Hn _ (nth_error_In _ _ Hi)).
    apply andb_prop in Hn as [_ Hn]. auto.
Qed.

(** C1. The flattener follows the spec's recursion rule: the keys of
    [flatten_dict d p sep] are exactly the paths reached by the rule (member
    [k] under prefix [p] at [p.k], just [k] at the root; element [i] at
    [p[i]]; mappings walked in turn, also inside sequences), every stored
    value is the value at its path, and the two scenarios of the spec come out
    as written. *)
Theorem flatten_dict_rule :
  flatten [("a", VDict [("b", VInt 1)])] = [("a.b", VInt 1)] /\
  flatten [("a", VList [VDict [("b", VInt 1)]; VInt 2])]
    = [("a[0].b", VInt 1); ("a[1]", VInt 2)] /\
  (forall sep d p key,
      dict_mem key (flatten_dict d p sep) = true <->
      exists x, spec_path sep p d key x) /\
  (forall sep d p key x,
      In (key, x) (flatten_dict d p sep) -> spec_path sep p d key x).
Proof.
  split; [reflexivity|]. split; [reflexivity|]. split.
  - intros sep d p key. split.
    + intros H. apply dict_mem_keys in H.
      apply in_map_iff in H as ([key' x] & <- & H).
      exists x. now apply flatten_dict_sound.
    + intros [x H]. eapply flatten_dict_complete; eauto.
  - intros. now apply flatten_dict_sound.
Qed.

Lemma flatten_dict_rule_witness :
  spec_path "." "" [("a", VList [VDict [("b", VInt 1)]; VInt 2])]
    "a[0].b" (VInt 1).
Proof.
  apply (proj2 (proj2 (proj2 flatten_dict_rule))).
  vm_compute. left. reflexivity.
Defined.

(** C7, as stated, fails: an element of a sequence that is itself a sequence
    is stored whole under its bracketed key. *)
Lemma flatten_values_scalar_counterexample :
  flatten [("a", VList [VList [VInt 1]])] = [("a[0]", VList [VInt 1])] /\
  is_scalar (VList [VInt 1]) = false.
Proof. split; reflexivity. Qed.

(** C7, amended. No value of the flattened mapping is a mapping, and when no
    sequence of the input has a sequence as a direct element every value is a
    scalar. *)
Theorem flatten_values_not_mapping d p sep key x :
  In (key, x) (flatten_dict d p sep) ->
  is_dict x = false /\
  (no_list_in_list (VDict d) = true -> is_scalar x = true).
Proof.
  intros H. apply flatten_dict_sound in H. split.
  - eapply spec_path_not_dict; eauto.
  - eapply spec_path_scalar; eauto.
Qed.

Lemma flatten_values_not_mapping_witness :
  is_dict (VInt 2) = false /\ is_scalar (VInt 2) = true.
Proof.
  destruct (flatten_values_not_mapping
              [("a", VList [VDict [("b", VInt 1)]; VInt 2])] "" "." "a[1]" (VInt 2))
    as [H1 H2].
  - vm_compute. right. left. reflexivity.
  - split; [exact H1 | apply H2; reflexivity].
Defined.

(** C10. A member whose value is an empty mapping or an empty sequence adds
    no key: the flattened mapping is that of the input without the member. *)
Theorem flatten_drops_empty :
  flatten [("a", VDict [])] = [] /\
  flatten [("a", VList [])] = [] /\
  forall d1 d2 k p sep,
    flatten_dict (d1 ++ (k, VDict []) :: d2) p sep = flatten_dict (d1 ++ d2) p sep /\
    flatten_dict (d1 ++ (k, VList []) :: d2) p sep = flatten_dict (d1 ++ d2) p sep.
Proof.
  split; [reflexivity|]. split; [reflexivity|].
  intros d1 d2 k p sep.
  rewrite !flatten_dict_eq, !flatten_members_app. simpl.
  split; reflexivity.
Qed.

(** ** Sorting keys *)

Lemma str_lt_irrefl a : ~ str_lt a a.
Proof. intros H. apply String_as_OT.lt_not_eq in H. now apply H. Qed.

Lemma leb_true_iff a b : (a <=? b)%string = true <-> a = b \/ str_lt a b.
Proof.
  unfold String.leb.
  destruct (String.compare a b) eqn:E.
  - apply String_as_OT.cmp_eq in E. tauto.
  - apply String_as_OT.cmp_lt in E. tauto.
  - split; [discriminate|]. intros [->|H].
    + assert (E' : String_as_OT.cmp b b = Eq) by now apply String_as_OT.cmp_eq.
      unfold String_as_OT.cmp in E'. congruence.
    + apply String_as_OT.cmp_lt in H. unfold String_as_OT.cmp in H. congruence.
Qed.

Lemma leb_false_lt a b : (a <=? b)%string = false -> str_lt b a.
Proof.
  unfold String.leb. rewrite String.compare_antisym.
  destruct (String.compare b a) eqn:E; simpl; try discriminate.
  intros _. now apply String_as_OT.cmp_lt.
Qed.

Lemma insert_sorted_In k l x : In x (insert_sorted k l) <-> x = k \/ In x l.
Proof.
  induction l as [|a l IH]; simpl.
  - intuition.
  - destruct (k <=? a)%string; simpl; [|rewrite IH]; intuition.
Qed.

Lemma sorted_In l x : In x (sorted l) <-> In x l.
Proof.
  induction l as [|a l IH]; simpl; [tauto|].
  rewrite insert_sorted_In, IH. intuition.
Qed.

Lemma insert_sorted_strict k l :
  StronglySorted str_lt l -> ~ In k l -> StronglySorted str_lt (insert_sorted k l).
Proof.
  induction 1 as [|a l Hs IH Ha]; simpl; intros Hk.
  - constructor; constructor.
  - destruct (k <=? a)%string eqn:E.
    + apply leb_true_iff in E as [->|E]; [tauto|].
      constructor; [now constructor|]. constructor; [exact E|].
      eapply Forall_impl; [|exact Ha]. intros b Hb.
      eapply String_as_OT.lt_trans; eauto.
    + apply leb_false_lt in E. constructor; [apply IH; tauto|].
      apply Forall_forall. intros x Hx. apply insert_sorted_In in Hx as [->|Hx].
      * exact E.
      * rewrite Forall_forall in Ha. auto.
Qed.

Lemma sorted_strict l : NoDup l -> StronglySorted str_lt (sorted l).
Proof.
  induction 1 as [|a l Ha _ IH]; simpl; [constructor|].
  apply insert_sorted_strict; [exact IH|]. now rewrite sorted_In.
Qed.

Lemma strict_sorted_NoDup l : StronglySorted str_lt l -> NoDup l.
Proof.
  induction 1 as [|a l _ IH Ha]; constructor; [|exact IH].
  intros Hin. rewrite Forall_forall in Ha. exact (str_lt_irrefl _ (Ha _ Hin)).
Qed.


Lemma strict_sorted_filter (p : string -> bool) l :
  StronglySorted str_lt l -> StronglySorted str_lt (filter p l).
Proof.
  induction 1 as [|a l _ IH Ha]; simpl; [constructor|].
  destruct (p a); [|exact IH]. constructor; [exact IH|].
  rewrite Forall_forall in *. intros x Hx. apply filter_In in Hx as [Hx _]. auto.
Qed.

(** ** The config differ *)

Lemma all_keys_In fd fc k :
  In k (all_keys fd fc) <-> dict_mem k fd = true \/ dict_mem k fc = true.
Proof.
  unfold all_keys. rewrite nodup_In, in_app_iff, !dict_mem_keys. tauto.
Qed.

Lemma visited_keys_In fd fc k :
  In k (visited_keys fd fc) <-> dict_mem k fd = true \/ dict_mem k fc = true.
Proof. unfold visited_keys. now rewrite sorted_In, all_keys_In. Qed.

Lemma visited_keys_sorted fd fc : StronglySorted str_lt (visited_keys fd fc).
Proof. apply sorted_strict, NoDup_nodup. Qed.


(** ** Equality of values *)









(** The loop, as four filters of the visited keys. *)
Lemma classify_fold fd fc ks : forall acc,
  fold_left (classify fd fc) ks acc =
  mkDiff
    (only_in_default acc
     ++ map (fun k => (k, dict_get_default k NOT_SET fd))
          (filter (goes_default_only fc) ks))
    (only_in_customer acc
     ++ map (fun k => (k, dict_get_default k NOT_SET fc))
          (filter (goes_customer_only fd fc) ks))
    (different_values acc
     ++ map (fun k => (k, dict_get_default k NOT_SET fd,
                       dict_get_default k NOT_SET fc))
          (filter (goes_different fd fc) ks))
    (same_values acc
     ++ map (fun k => (k, dict_get_default k NOT_SET fd))
          (filter (goes_same fd fc) ks)).
Proof.
  induction ks as [|k ks IH]; simpl; intros acc.
  - rewrite !app_nil_r. now destruct acc.
  - rewrite IH.
    unfold classify, goes_default_only, goes_customer_only, goes_different,
      goes_same.
    destruct (dict_mem k fc), (dict_mem k fd),
      (py_ne (dict_get_default k NOT_SET fd) (dict_get_default k NOT_SET fc));
      simpl; rewrite <- ?app_assoc; reflexivity.
Qed.

Lemma diff_eq fd fc :
  diff fd fc =
  let ks := visited_keys fd fc in
  mkDiff
    (map (fun k => (k, dict_get_default k NOT_SET fd))
       (filter (goes_default_only fc) ks))
    (map (fun k => (k, dict_get_default k NOT_SET fc))
       (filter (goes_customer_only fd fc) ks))
    (map (fun k => (k, dict_get_default k NOT_SET fd,
                    dict_get_default k NOT_SET fc))
       (filter (goes_different fd fc) ks))
    (map (fun k => (k, dict_get_default k NOT_SET fd))
       (filter (goes_same fd fc) ks)).
Proof. unfold diff. now rewrite classify_fold. Qed.

Lemma four_filters_perm fd fc ks :
  Permutation
    (filter (goes_default_only fc) ks ++ filter (goes_customer_only fd fc) ks
     ++ filter (goes_different fd fc) ks ++ filter (goes_same fd fc) ks) ks.
Proof.
  induction ks as [|k ks IH]; simpl; [constructor|].
  unfold goes_default_only at 1, goes_customer_only at 1, goes_different at 1,
    goes_same at 1.
  destruct (dict_mem k fc), (dict_mem k fd),
    (py_ne (dict_get_default k NOT_SET fd) (dict_get_default k NOT_SET fc));
    simpl;
    try (now constructor);
    apply Permutation_sym;
    try (apply (Permutation_cons_app (filter (goes_default_only fc) ks));
         now apply Permutation_sym);
    rewrite ?app_assoc;
    try (apply Permutation_cons_app; rewrite <- ?app_assoc;
         now apply Permutation_sym).
  all: rewrite <- app_assoc.
  all: rewrite (app_assoc (filter (goes_default_only fc) ks)).
  all: apply Permutation_cons_app; rewrite <- ?app_assoc;
    now apply Permutation_sym.
Qed.

Lemma keys_of_tagged {A} (f : string -> A) l :
  keys_of (map (fun k => (k, f k)) l) = l.
Proof. unfold keys_of. rewrite map_map. simpl. apply map_id. Qed.

Lemma changed_keys_tagged {A B} (f : string -> A) (g : string -> B) l :
  map (fun t => fst (fst t)) (map (fun k => (k, f k, g k)) l) = l.
Proof. rewrite map_map. simpl. apply map_id. Qed.

Ltac lookups k fd fc :=
  unfold goes_default_only, goes_customer_only, goes_different, goes_same,
    py_ne, dict_mem, dict_get_default in *;
  destruct (dict_get k fd) eqn:?, (dict_get k fc) eqn:?; simpl in *.

Section Membership.
Variables fd fc : dict.
Let ks := visited_keys fd fc.
Let default_val k := dict_get_default k NOT_SET fd.
Let customer_val k := dict_get_default k NOT_SET fc.

Lemma default_only_In k v :
  In (k, v) (map (fun k => (k, default_val k)) (filter (goes_default_only fc) ks))
  <-> dict_get k fd = Some v /\ dict_get k fc = None.
Proof.
  rewrite in_map_iff. subst ks default_val. split.
  - intros (k0 & [= -> <-] & H). apply filter_In in H as [Hin Hp].
    apply visited_keys_In in Hin.
    lookups k fd fc; intuition congruence.
  - intros [H1 H2]. exists k. rewrite filter_In, visited_keys_In.
    lookups k fd fc; intuition congruence.
Qed.

Lemma customer_only_In k v :
  In (k, v) (map (fun k => (k, customer_val k))
               (filter (goes_customer_only fd fc) ks))
  <-> dict_get k fd = None /\ dict_get k fc = Some v.
Proof.
  rewrite in_map_iff. subst ks customer_val. split.
  - intros (k0 & [= -> <-] & H). apply filter_In in H as [Hin Hp].
    lookups k fd fc; intuition congruence.
  - intros [H1 H2]. exists k. rewrite filter_In, visited_keys_In.
    lookups k fd fc; intuition congruence.
Qed.

Lemma different_In k a b :
  In (k, a, b) (map (fun k => (k, default_val k, customer_val k))
                  (filter (goes_different fd fc) ks))
  <-> dict_get k fd = Some a /\ dict_get k fc = Some b /\ py_eq a b = false.
Proof.
  rewrite in_map_iff. subst ks default_val customer_val. split.
  - intros (k0 & [= -> <- <-] & H). apply filter_In in H as [Hin Hp].
    lookups k fd fc; try discriminate.
    apply negb_true_iff in Hp. auto.
  - intros (H1 & H2 & H3). exists k. rewrite filter_In, visited_keys_In.
    lookups k fd fc; try discriminate.
    injection H1 as ->. injection H2 as ->. rewrite H3. auto.
Qed.

Lemma same_In k a :
  In (k, a) (map (fun k => (k, default_val k)) (filter (goes_same fd fc) ks))
  <-> exists b, dict_get k fd = Some a /\ dict_get k fc = Some b /\
                py_eq a b = true.
Proof.
  rewrite in_map_iff. subst ks default_val. split.
  - intros (k0 & [= -> <-] & H). apply filter_In in H as [Hin Hp].
    lookups k fd fc; try discriminate.
    rewrite negb_involutive in Hp. eauto.
  - intros (b & H1 & H2 & H3). exists k. rewrite filter_In, visited_keys_In.
    lookups k fd fc; try discriminate.
    injection H1 as ->. injection H2 as ->. rewrite H3. auto.
Qed.
End Membership.

(** C2. The loop visits the union of the two key sets in sorted order and
    files every visited key in exactly one of the four lists, by the
    presence-then-equality tests: the four key lists together are a
    rearrangement of the visited keys, no key occurs twice among them, and
    each list is itself in sorted key order. *)
Theorem diff_classifies_each_key (flatA flatB : dict) :
  let r := diff flatA flatB in
  let ks := visited_keys flatA flatB in
  (forall k, In k ks <-> dict_mem k flatA = true \/ dict_mem k flatB = true) /\
  StronglySorted str_lt ks /\
  (forall k v, In (k, v) (only_in_default r) <->
               dict_get k flatA = Some v /\ dict_get k flatB = None) /\
  (forall k v, In (k, v) (only_in_customer r) <->
               dict_get k flatA = None /\ dict_get k flatB = Some v) /\
  (forall k a b, In (k, a, b) (different_values r) <->
                 dict_get k flatA = Some a /\ dict_get k flatB = Some b /\
                 py_eq a b = false) /\
  (forall k a, In (k, a) (same_values r) <->
               exists b, dict_get k flatA = Some a /\ dict_get k flatB = Some b /\
                         py_eq a b = true) /\
  Permutation
    (keys_of (only_in_default r) ++ keys_of (only_in_customer r)
     ++ changed_keys r ++ keys_of (same_values r)) ks /\
  NoDup
    (keys_of (only_in_default r) ++ keys_of (only_in_customer r)
     ++ changed_keys r ++ keys_of (same_values r)) /\
  StronglySorted str_lt (keys_of (only_in_default r)) /\
  StronglySorted str_lt (keys_of (only_in_customer r)) /\
  StronglySorted str_lt (changed_keys r) /\
  StronglySorted str_lt (keys_of (same_values r)).
Proof.
  intros r ks. subst r. rewrite diff_eq. fold ks. cbv zeta.
  unfold changed_keys. simpl.
  rewrite !keys_of_tagged, changed_keys_tagged.
  pose proof (visited_keys_sorted flatA flatB) as Hs. fold ks in Hs.
  assert (Hp := four_filters_perm flatA flatB ks).
  split; [intros k; apply visited_keys_In|].
  split; [exact Hs|].
  split; [intros k v; apply default_only_In|].
  split; [intros k v; apply customer_only_In|].
  split; [intros k a b; apply different_In|].
  split; [intros k a; apply same_In|].
  split; [exact Hp|].
  split.
  { eapply Permutation_NoDup; [apply Permutation_sym; exact Hp|].
    now apply strict_sorted_NoDup. }
  repeat split; now apply strict_sorted_filter.
Qed.

Lemma diff_classifies_each_key_witness :
  In ("b", VInt 2, VInt 3)
    (different_values (diff [("a", VInt 1); ("b", VInt 2)]
                            [("b", VInt 3); ("c", VInt 4)])).
Proof.
  apply (proj1 (proj2 (proj2 (proj2 (proj2
           (diff_classifies_each_key [("a", VInt 1); ("b", VInt 2)]
                                     [("b", VInt 3); ("c", VInt 4)])))))).
  repeat split.
Defined.







(** ** Effects *)

Lemma outcome_bind {A B} (m : M A) (k : A -> M B) :
  outcome (bind m k) =
  match outcome m with
  | Ok a => outcome (k a)
  | Raised e => Raised e
  | OutOfFuel => OutOfFuel
  end.
Proof.
  destruct m as [t [a|e|]]; simpl; try reflexivity.
  now destruct (k a).
Qed.

Lemma trace_bind {A B} (m : M A) (k : A -> M B) :
  trace (bind m k) =
  match outcome m with
  | Ok a => trace m ++ trace (k a)
  | _ => trace m
  end.
Proof.
  destruct m as [t [a|e|]]; simpl; try reflexivity.
  now destruct (k a).
Qed.

Lemma requests_sent_bind {A B} (m : M A) (k : A -> M B) :
  requests_sent (bind m k) =
  match outcome m with
  | Ok a => requests_sent m + requests_sent (k a)
  | _ => requests_sent m
  end.
Proof.
  unfold requests_sent. rewrite trace_bind.
  destruct (outcome m); try reflexivity.
  now rewrite filter_app, length_app.
Qed.

(** ** The comparison report *)

(** C8. When the customer configuration has no [data] field, or an empty
    one, the comparison prints the banner, the line saying that the default
    configuration is in use, and the default data, and returns: none of the
    lines of the key-level comparison is printed and nothing is flattened,
    whatever the default configuration holds. *)
Theorem compare_configs_uses_defaults (default_config customer_config : dict) :
  (dict_get "data" customer_config = None \/
   exists v, dict_get "data" customer_config = Some v /\ truthy v = false) ->
  compare_configs (VDict default_config) (VDict customer_config) =
    ([Print (rule "=" 80) [];
      Print "HARNESS CONFIGURATION COMPARISON" [];
      Print (rule "=" 80) [];
      Print "RESULT: Customer config is using DEFAULT configuration (no overrides)" [];
      Print "Default configuration:" [];
      Print "{json}" [dict_get_default "data" (VDict []) default_config]],
     Ok tt) /\
  existsb diffing_line
    (trace (compare_configs (VDict default_config) (VDict customer_config)))
  = false.
Proof.
  intros H.
  assert (E : compare_configs (VDict default_config) (VDict customer_config) =
    ([Print (rule "=" 80) [];
      Print "HARNESS CONFIGURATION COMPARISON" [];
      Print (rule "=" 80) [];
      Print "RESULT: Customer config is using DEFAULT configuration (no overrides)" [];
      Print "Default configuration:" [];
      Print "{json}" [dict_get_default "data" (VDict []) default_config]],
     Ok tt)).
  { unfold compare_configs, py_get. cbn [print ret bind app].
    assert (Hf : truthy (dict_get_default "data" (VDict []) customer_config) = false).
    { unfold dict_get_default. destruct H as [->|(v & -> & Hv)]; auto. }
    rewrite Hf. reflexivity. }
  split; [exact E|]. rewrite E. reflexivity.
Qed.

Lemma compare_configs_uses_defaults_witness :
  existsb diffing_line
    (trace (compare_configs (VDict [("data", VList [VInt 1])])
              (VDict [("status", VStr "SUCCESS"); ("data", VDict [])])))
  = false.
Proof.
  apply (compare_configs_uses_defaults
           [("data", VList [VInt 1])]
           [("status", VStr "SUCCESS"); ("data", VDict [])]).
  right. exists (VDict []). split; reflexivity.
Defined.

Example compare_configs_flattens_otherwise :
  outcome (compare_configs (VDict [("data", VList [VInt 1])])
             (VDict [("data", VDict [("a", VInt 1)])]))
  = Raised AttributeError.
Proof. reflexivity. Qed.

(** ** The entry points *)

(** C6, as stated, fails: the support-images script checks nothing, sends
    its request with both variables absent and ends with status 0; and
    pipelinesByOrg, given a token and no account identifier, goes on to
    fetch the organizations. *)
Lemma missing_credentials_counterexample :
  let offline := fun (_ : string) (_ _ : dict) => Failure None in
  let down := fun (_ _ : string) (_ : dict) (_ : option value) => Failure None in
  requests_sent (SupportImages.main offline (mkEnv None None)) = 1 /\
  exit_code (SupportImages.main offline (mkEnv None None)) = Some 0 /\
  requests_sent
    (ByOrg.main down (mkEnv (Some "token") None) (fun _ _ => ret tt) 5) = 1.
Proof. repeat split. Qed.

(** C6, amended. With either variable absent (unset or empty),
    pipelineAppIDs exits with status 1 before any request, and so does the
    comparison script, by the [ValueError] of its first fetch; pipelinesByOrg
    does the same when the API key is absent; the support-images script
    validates nothing and sends its one request in any case. *)
Theorem missing_credentials_fatal (env : environ) :
  unset (HARNESS_API_TOKEN env) = true \/ unset (HARNESS_ACCT_ID env) = true ->
  (forall net report fuel,
      requests_sent (AppIDs.main net env report fuel) = 0 /\
      exit_code (AppIDs.main net env report fuel) = Some 1) /\
  (forall net,
      requests_sent (CompareConfig.main net env) = 0 /\
      exit_code (CompareConfig.main net env) = Some 1) /\
  (unset (HARNESS_API_TOKEN env) = true ->
   forall net report fuel,
      requests_sent (ByOrg.main net env report fuel) = 0 /\
      exit_code (ByOrg.main net env report fuel) = Some 1) /\
  (forall net, requests_sent (SupportImages.main net env) = 1).
Proof.
  intros H.
  split; [intros net report fuel; split|].
  3: split; [intros net; split|].
  5: split; [intros Ht net report fuel; split | intros net].
  - unfold AppIDs.main. destruct H as [-> | H]; [reflexivity|].
    destruct (unset (HARNESS_API_TOKEN env)); [reflexivity|].
    now rewrite H.
  - unfold AppIDs.main. destruct H as [-> | H]; [reflexivity|].
    destruct (unset (HARNESS_API_TOKEN env)); [reflexivity|].
    now rewrite H.
  - unfold CompareConfig.main, CompareConfig.get_harness_config.
    destruct H as [H | H]; rewrite H, ?orb_true_r; reflexivity.
  - unfold CompareConfig.main, CompareConfig.get_harness_config.
    destruct H as [H | H]; rewrite H, ?orb_true_r; reflexivity.
  - unfold ByOrg.main. now rewrite Ht.
  - unfold ByOrg.main. now rewrite Ht.
  - unfold SupportImages.main. now destruct (net _ _ _).
Qed.

Lemma missing_credentials_fatal_witness :
  exit_code
    (AppIDs.main (fun _ _ _ _ => Failure None) (mkEnv (Some "token") None)
       (fun _ _ => ret tt) 5) = Some 1.
Proof.
  apply (missing_credentials_fatal (mkEnv (Some "token") None)).
  right. reflexivity.
Defined.

(** ** The pagination walker *)

Lemma first_true (f : nat -> bool) N :
  f N = true ->
  exists n, n <= N /\ f n = true /\ forall i, i < n -> f i = false.
Proof.
  induction N as [N IH] using lt_wf_ind. intros HN.
  destruct (forallb (fun i => negb (f i)) (seq 0 N)) eqn:E.
  - exists N. split; [lia|]. split; [exact HN|]. intros i Hi.
    rewrite forallb_forall in E. specialize (E i).
    rewrite in_seq in E. apply negb_true_iff, E. lia.
  - assert (H : exists i, i < N /\ f i = true).
    { clear -E. induction N as [|N IH].
      - discriminate.
      - rewrite seq_S, forallb_app in E. simpl in E.
        destruct (forallb (fun i => negb (f i)) (seq 0 N)) eqn:E'.
        + exists N. split; [lia|]. simpl in E. rewrite andb_true_r in E.
          now apply negb_false_iff in E.
        + destruct (IH eq_refl) as (i & Hi & Hf). exists i. split; [lia|auto]. }
    destruct H as (i & Hi & Hf).
    destruct (IH i Hi Hf) as (n & Hn & Hfn & Hlt).
    exists n. split; [lia|]. auto.
Qed.

Lemma pages_needed_covers total : total <= pages_needed total 100 * 100.
Proof.
  unfold pages_needed.
  pose proof (Nat.div_mod_eq (total + 100 - 1) 100) as E.
  pose proof (Nat.mod_upper_bound (total + 100 - 1) 100) as U.
  lia.
Qed.

Lemma page_of_past_end all page :
  pages_needed (List.length all) 100 <= page -> page_of all 100 page = [].
Proof.
  intros H. unfold page_of. rewrite skipn_all2; [apply firstn_nil|].
  pose proof (pages_needed_covers (List.length all)). nia.
Qed.

Lemma set_page_index self q page :
  dict_set (page_params self q) "pageIndex" (nat_value page)
  = page_params self page.
Proof. reflexivity. Qed.

Section WalkerFacts.
Variable session_request : string -> string -> dict -> option value -> reply.
Variable make_request : string -> string -> dict -> option value -> M value.
Variable self : client.

Hypothesis make_request_outcome : forall m e p d,
  outcome (make_request m e p d)
  = Ok (body (session_request m (request_url self e) p d)).
Hypothesis make_request_requests : forall m e p d,
  requests_of (make_request m e p d) = [Request m (request_url self e) p d].

Let server (page : nat) : reply :=
  session_request "GET" (request_url self "/organizations")
    (page_params self page) None.

Lemma organizations_page_step q page organizations pr :
  read_page (server page) = Some pr ->
  requests_of (organizations_page make_request (page_params self q) page
                 organizations) = [page_request self page] /\
  outcome (organizations_page make_request (page_params self q) page
             organizations)
  = Ok (if spec_stops pr then inl (organizations ++ items_of pr)
        else inr (organizations ++ items_of pr)).
Proof.
  intros Hr. unfold organizations_page. rewrite set_page_index.
  pose proof (make_request_outcome "GET" "/organizations"
                (page_params self page) None) as Ho.
  pose proof (make_request_requests "GET" "/organizations"
                (page_params self page) None) as Hq.
  fold (server page) in Ho.
  destruct (make_request "GET" "/organizations" (page_params self page) None)
    as [t r]. unfold requests_of, trace, outcome in *. simpl in Ho, Hq.
  subst r. unfold read_page in Hr. cbn [bind].
  destruct (truthy (body (server page))) eqn:T; simpl in Hr.
  2:{ injection Hr as <-. simpl. rewrite app_nil_r.
      split; [assumption | now rewrite app_nil_r]. }
  destruct (body (server page)) as [| | | | |resp]; try discriminate.
  cbn [negb py_get ret bind app].
  destruct (truthy (dict_get_default "data" VNone resp)) eqn:T1; simpl in Hr.
  2:{ injection Hr as <-. simpl. rewrite !app_nil_r.
      split; [assumption | reflexivity]. }
  destruct (dict_get_default "data" VNone resp) as [| | | | |d]; try discriminate.
  cbn [negb py_get ret bind app].
  destruct (truthy (dict_get_default "content" VNone d)) eqn:T2; simpl in Hr.
  2:{ injection Hr as <-. simpl. rewrite !app_nil_r.
      split; [assumption | reflexivity]. }
  destruct (dict_get_default "content" VNone d) as [| | | |l|]; try discriminate.
  injection Hr as <-. cbn [negb py_iter py_get ret bind app spec_stops items_of].
  destruct (truthy (dict_get_default "last" (VBool true) d)); simpl;
    rewrite !app_nil_r; (split; [assumption | reflexivity]).
Qed.

Lemma organizations_loop_runs (pages : nat -> page_result) n :
  forall page fuel organizations q,
    (forall i, i <= n -> read_page (server (page + i)) = Some (pages (page + i))) ->
    (forall i, i < n -> spec_stops (pages (page + i)) = false) ->
    spec_stops (pages (page + n)) = true ->
    n < fuel ->
    requests_of (organizations_loop make_request fuel (page_params self q)
                   page organizations)
    = map (page_request self) (seq page (S n)) /\
    outcome (organizations_loop make_request fuel (page_params self q)
               page organizations)
    = Ok (organizations
          ++ flat_map (fun p => items_of (pages p)) (seq page (S n))).
Proof.
  induction n as [|n IH]; intros page fuel organizations q Hr Hgo Hstop Hfuel;
    (destruct fuel as [|fuel]; [lia|]);
    pose proof (Hr 0 ltac:(lia)) as Hr0; rewrite Nat.add_0_r in Hr0;
    destruct (organizations_page_step q page organizations _ Hr0) as [Hq Ho];
    cbn [organizations_loop]; unfold requests_of in *;
    rewrite trace_bind, outcome_bind, Ho.
  - rewrite Nat.add_0_r in Hstop. rewrite Hstop. simpl.
    rewrite !app_nil_r. split; [exact Hq | reflexivity].
  - pose proof (Hgo 0 ltac:(lia)) as H0. rewrite Nat.add_0_r in H0.
    rewrite H0, set_page_index, filter_app, Hq.
    destruct (IH (S page) fuel (organizations ++ items_of (pages page)) page)
      as [IHq IHo]; try lia.
    + intros i Hi. replace (S page + i) with (page + S i) by lia.
      apply Hr. lia.
    + intros i Hi. replace (S page + i) with (page + S i) by lia.
      apply Hgo. lia.
    + replace (S page + n) with (page + S n) by lia. exact Hstop.
    + rewrite IHq, IHo. split; [reflexivity|].
      change (seq page (S (S n))) with (page :: seq (S page) (S n)).
      cbn [flat_map]. now rewrite app_assoc.
Qed.

Lemma well_behaved_reads all page :
  well_behaved server all 100 ->
  exists pr, read_page (server page) = Some pr /\
             (pages_needed (List.length all) 100 <= page -> spec_stops pr = true).
Proof.
  intros W. destruct (W page) as [[st E]|(resp & d & E & Hd & Hc)].
  - rewrite E. now exists Absent.
  - rewrite E. unfold read_page. cbn [body].
    assert (T : truthy (VDict resp) = true).
    { destruct resp; [discriminate | reflexivity]. }
    rewrite T. cbn [negb]. unfold dict_get_default at 1 2. rewrite Hd.
    assert (T1 : truthy (VDict d) = true).
    { destruct d; [discriminate | reflexivity]. }
    rewrite T1. cbn [negb]. unfold dict_get_default at 1 2. rewrite Hc.
    destruct (page_of all 100 page) as [|x l] eqn:P.
    + now exists NoContent.
    + eexists. split; [reflexivity|]. intros Hp.
      rewrite page_of_past_end in P by assumption. discriminate.
Qed.

Lemma walker_meets_contract :
  walker_contract self server (get_organizations make_request self).
Proof.
  unfold walker_contract, get_organizations.
  change (organizations_params self) with (page_params self 0).
  assert (Run : forall (pages : nat -> page_result) n fuel,
    (forall p, p <= n -> read_page (server p) = Some (pages p)) ->
    (forall p, p < n -> spec_stops (pages p) = false) ->
    spec_stops (pages n) = true ->
    n < fuel ->
    requests_of (organizations_loop make_request fuel (page_params self 0) 0 [])
      = map (page_request self) (seq 0 (S n)) /\
    outcome (organizations_loop make_request fuel (page_params self 0) 0 [])
      = Ok (flat_map (fun p => items_of (pages p)) (seq 0 (S n)))).
  { intros pages n fuel Hr Hgo Hstop Hfuel.
    apply (organizations_loop_runs pages n 0 fuel [] 0); auto. }
  split; [exact Run|]. split.
  - intros all fuel W Hfuel.
    set (N := pages_needed (List.length all) 100) in *.
    set (pages := fun p => match read_page (server p) with
                           | Some pr => pr
                           | None => Absent
                           end).
    assert (Hread : forall p, read_page (server p) = Some (pages p)).
    { intros p. destruct (well_behaved_reads all p W) as (pr & E & _).
      unfold pages. now rewrite E. }
    assert (HN : spec_stops (pages N) = true).
    { destruct (well_behaved_reads all N W) as (pr & E & Hs).
      unfold pages. rewrite E. apply Hs. apply Nat.le_refl. }
    destruct (first_true (fun p => spec_stops (pages p)) N HN)
      as (n & Hn & Hstop & Hgo).
    destruct (Run pages n fuel) as [Hq Ho]; auto; try lia.
    split; [eauto|]. unfold requests_sent. unfold requests_of in Hq.
    rewrite Hq, length_map, length_seq. lia.
  - intros content fuel Hr Hfuel.
    destruct (Run (fun _ => Page content true) 0 fuel) as [Hq Ho];
      auto; try lia.
    + intros p Hp. replace p with 0 by lia. exact Hr.
    + split.
      * unfold requests_sent. unfold requests_of in Hq. now rewrite Hq.
      * rewrite Ho. simpl. now rewrite app_nil_r.
Qed.
End WalkerFacts.

Lemma ByOrg_make_request_outcome net self m e p d :
  outcome (ByOrg._make_request net self m e p d)
  = Ok (body (net m (request_url self e) p d)).
Proof.
  unfold ByOrg._make_request. now destruct (net m (request_url self e) p d).
Qed.

Lemma ByOrg_make_request_requests net self m e p d :
  requests_of (ByOrg._make_request net self m e p d)
  = [Request m (request_url self e) p d].
Proof.
  unfold ByOrg._make_request.
  destruct (net m (request_url self e) p d) as [v|[code|]]; try reflexivity.
  unfold requests_of. simpl. now destruct (code =? 404)%nat.
Qed.

Lemma AppIDs_make_request_outcome net self m e p d :
  outcome (AppIDs._make_request net self m e p d)
  = Ok (body (net m (request_url self e) p d)).
Proof.
  unfold AppIDs._make_request. now destruct (net m (request_url self e) p d).
Qed.

Lemma AppIDs_make_request_requests net self m e p d :
  requests_of (AppIDs._make_request net self m e p d)
  = [Request m (request_url self e) p d].
Proof.
  unfold AppIDs._make_request.
  destruct (net m (request_url self e) p d) as [v|[code|]]; try reflexivity.
  unfold requests_of. simpl. now destruct (code =? 404)%nat.
Qed.

(** C4. In both files [get_organizations] asks for page 0, then page 1 and
    so on, and stops at the first page whose response is absent, carries no
    content list (or an empty one), or has a true last-page flag, an absent
    flag counting as true; it returns the content lists of the pages fetched,
    in order.  So on a well-behaved server it ends after at most
    ceil(total/pageSize)+1 requests, and after exactly one when the first
    page says it is the last. *)
Theorem walker_terminates net (self : client) :
  let server := fun page =>
    net "GET" (request_url self "/organizations") (page_params self page) None in
  walker_contract self server (ByOrg.get_organizations net self) /\
  walker_contract self server (AppIDs.get_organizations net self).
Proof.
  split.
  - apply (walker_meets_contract net (ByOrg._make_request net self) self).
    + apply ByOrg_make_request_outcome.
    + apply ByOrg_make_request_requests.
  - apply (walker_meets_contract net (AppIDs._make_request net self) self).
    + apply AppIDs_make_request_outcome.
    + apply AppIDs_make_request_requests.
Qed.

Lemma walker_terminates_witness :
  requests_sent
    (ByOrg.get_organizations (paging_server [VStr "a"; VStr "b"])
       example_client 5)
  <= pages_needed 2 100 + 1.
Proof.
  refine (proj2 (proj1 (proj2 (proj1
            (walker_terminates (paging_server [VStr "a"; VStr "b"])
               example_client)))
            [VStr "a"; VStr "b"] 5 _ _)).
  - intros page. right.
    exists [("data", VDict [("content",
                             VList (page_of [VStr "a"; VStr "b"] 100 page))])],
      [("content", VList (page_of [VStr "a"; VStr "b"] 100 page))].
    split; [|split; reflexivity].
    unfold paging_server, page_params, nat_value.
    cbn [dict_get String.eqb Ascii.eqb Bool.eqb].
    now rewrite Nat2Z.id.
  - vm_compute. lia.
Defined.

(** ** The pipeline lister *)




(** ** The appID extractor *)

Lemma scan_scenario :
  AppIDs.scan AppIDs.scenario [] = ["svc-42"] /\
  AppIDs.scan AppIDs.scenario_dump [] = ["svc-42"].
Proof. split; vm_compute; reflexivity. Qed.

(** The scenario of the spec, PyYAML doing on it what it does. *)
Lemma extract_scenario safe_load dump repr :
  safe_load AppIDs.scenario = AppIDs.Loaded AppIDs.scenario_doc ->
  dump AppIDs.scenario_doc = AppIDs.scenario_dump ->
  AppIDs.extract_app_ids_from_yaml safe_load dump repr AppIDs.scenario
  = Ok ["svc-42"].
Proof.
  intros Hl Hd. unfold AppIDs.extract_app_ids_from_yaml.
  rewrite Hl. cbn [AppIDs.yaml_truthy AppIDs.scenario_doc]. rewrite Hd.
  rewrite (proj2 scan_scenario). reflexivity.
Qed.

Lemma scan_tags_plain repr tags app_ids :
  AppIDs.plain_tags tags = true ->
  AppIDs.scan_tags repr tags app_ids = Ok app_ids.
Proof.
  induction tags as [|[[| | |k] v] tags IH]; simpl; try discriminate; auto.
  intros H. apply andb_prop in H as [H1 H2]. apply negb_true_iff in H1.
  rewrite H1. auto.
Qed.

(** Nothing found in the text scanned, and tags with plain string keys:
    the empty set. *)
Lemma extract_nothing safe_load dump repr yaml_content :
  match safe_load yaml_content with
  | AppIDs.Loaded doc =>
      AppIDs.scan (if AppIDs.yaml_truthy doc then dump doc else yaml_content) []
        = [] /\
      AppIDs.plain_tags (AppIDs.tags_of doc) = true
  | AppIDs.YAMLError => AppIDs.scan yaml_content [] = []
  end ->
  AppIDs.extract_app_ids_from_yaml safe_load dump repr yaml_content = Ok [].
Proof.
  unfold AppIDs.extract_app_ids_from_yaml, AppIDs.tags_of.
  destruct (safe_load yaml_content) as [doc|]; [|now intros ->].
  intros [-> Ht].
  destruct doc as [| | | | |d]; try reflexivity.
  destruct (AppIDs.ymap_get "tags" d) as [[| | | | |tags]|]; try reflexivity.
  now apply scan_tags_plain.
Qed.

(** C9. On the text [tags:] with the member [1: x] under it, which PyYAML
    loads as a tags mapping with the number 1 as key, the extractor raises
    [AttributeError] at [key.lower()] and returns no set, though the text
    has none of the key names and no matching tag. *)
Theorem extract_raises_on_numbered_tag safe_load dump repr :
  safe_load AppIDs.numbered_tag = AppIDs.Loaded AppIDs.numbered_tag_doc ->
  AppIDs.scan AppIDs.numbered_tag [] = [] /\
  AppIDs.extract_app_ids_from_yaml safe_load dump repr AppIDs.numbered_tag
  = Raised AttributeError.
Proof.
  intros Hl. split; [vm_compute; reflexivity|].
  unfold AppIDs.extract_app_ids_from_yaml. rewrite Hl. reflexivity.
Qed.

Lemma extract_raises_on_numbered_tag_witness :
  AppIDs.extract_app_ids_from_yaml
    (fun _ => AppIDs.Loaded AppIDs.numbered_tag_doc)
    (fun _ => "tags:" ++ AppIDs.nl ++ "  1: x" ++ AppIDs.nl)%string
    (fun _ => "") AppIDs.numbered_tag
  = Raised AttributeError.
Proof.
  apply (extract_raises_on_numbered_tag
           (fun _ => AppIDs.Loaded AppIDs.numbered_tag_doc)
           (fun _ => "tags:" ++ AppIDs.nl ++ "  1: x" ++ AppIDs.nl)%string
           (fun _ => "")).
  reflexivity.
Defined.


(* ================================================================== *)
(** * Part III: further properties of the code *)
(* ================================================================== *)

(** ** Strings and index keys *)

Lemma append_assoc (a b c : string) : ((a ++ b) ++ c = a ++ (b ++ c))%string.
Proof. induction a as [|x a IH]; simpl; [reflexivity | now rewrite IH]. Qed.

Lemma append_inj_l (a b c : string) : (a ++ b = a ++ c)%string -> b = c.
Proof. induction a as [|x a IH]; simpl; [auto | intros [= H]; auto]. Qed.

Lemma append_length (a b : string) :
  String.length (a ++ b) = String.length a + String.length b.
Proof. induction a as [|x a IH]; simpl; [reflexivity | now rewrite IH]. Qed.

Lemma append_inj_r (a b c : string) : (a ++ c = b ++ c)%string -> a = b.
Proof.
  revert b. induction a as [|x a IH]; intros [|y b] H; simpl in H.
  - reflexivity.
  - apply (f_equal String.length) in H. simpl in H. rewrite append_length in H. lia.
  - apply (f_equal String.length) in H. simpl in H. rewrite append_length in H. lia.
  - injection H as -> H. f_equal. auto.
Qed.

Lemma str_of_nat_inj i j : str_of_nat i = str_of_nat j -> i = j.
Proof.
  unfold str_of_nat. intros H.
  apply Unsigned.to_uint_inj.
  apply (f_equal NilEmpty.uint_of_string) in H.
  rewrite !NilEmpty.usu in H. now injection H.
Qed.

Lemma index_key_inj key i j : index_key key i = index_key key j -> i = j.
Proof.
  unfold index_key. intros H. apply append_inj_l in H.
  change ("[" ++ str_of_nat i ++ "]")%string
    with (String "[" (str_of_nat i ++ "]")%string) in H.
  change ("[" ++ str_of_nat j ++ "]")%string
    with (String "[" (str_of_nat j ++ "]")%string) in H.
  injection H as H. apply append_inj_r in H. now apply str_of_nat_inj.
Qed.

(** ** The config flattener, further *)

Lemma dict_set_new d k v : ~ In k (keys d) -> dict_set d k v = d ++ [(k, v)].
Proof.
  induction d as [|[k' v'] d IH]; simpl; intros H; [reflexivity|].
  destruct (String.eqb_spec k k') as [->|]; [tauto|].
  rewrite IH; tauto.
Qed.

Lemma dict_get_set_same d k v : dict_get k (dict_set d k v) = Some v.
Proof.
  induction d as [|[k' v'] d IH]; simpl.
  - now rewrite String.eqb_refl.
  - destruct (String.eqb_spec k k') as [->|E]; simpl.
    + now rewrite String.eqb_refl.
    + now rewrite (proj2 (String.eqb_neq k k') E).
Qed.


Lemma dict_of_items_snoc l k v :
  dict_of_items (l ++ [(k, v)]) = dict_set (dict_of_items l) k v.
Proof. unfold dict_of_items. now rewrite fold_left_app. Qed.

Lemma dict_of_items_distinct l : NoDup (map fst l) -> dict_of_items l = l.
Proof.
  induction l as [|[k v] l IH] using rev_ind; [reflexivity|].
  rewrite map_app. simpl. intros ND.
  apply NoDup_remove in ND as [ND Hk]. rewrite !app_nil_r in *.
  rewrite dict_of_items_snoc, IH by assumption.
  now apply dict_set_new.
Qed.

Lemma flatten_members_scalars rec sep d :
  (forall k v, In (k, v) d -> is_scalar v = true) ->
  flatten_members rec "" sep d = d.
Proof.
  induction d as [|[k v] d IH]; simpl; intros H; [reflexivity|].
  rewrite IH by eauto.
  assert (Hv : is_scalar v = true) by (apply (H k); now left).
  now destruct v.
Qed.

(** X1. A mapping that is flat already (each key once, every value a
    scalar) is returned unchanged, keys and order included, whatever the
    separator. *)
Theorem flatten_flat_is_identity (d : dict) (sep : string) :
  NoDup (keys d) ->
  (forall k v, In (k, v) d -> is_scalar v = true) ->
  flatten_dict d "" sep = d.
Proof.
  intros ND Hs. rewrite flatten_dict_eq, flatten_members_scalars by assumption.
  now apply dict_of_items_distinct.
Qed.

Lemma flatten_flat_is_identity_witness :
  flatten_dict [("a.b", VInt 1); ("c[0]", VStr "x")] "" "."
  = [("a.b", VInt 1); ("c[0]", VStr "x")].
Proof.
  apply flatten_flat_is_identity.
  - repeat constructor; simpl; intuition discriminate.
  - intros k v [[= <- <-]|[[= <- <-]|[]]]; reflexivity.
Defined.

(** X2. Flattening twice is flattening once, when no sequence of the input
    has a sequence as a direct element. *)
Theorem flatten_idempotent (d : dict) :
  no_list_in_list (VDict d) = true ->
  flatten (flatten d) = flatten d.
Proof.
  intros H. unfold flatten.
  rewrite (flatten_dict_eq (flatten_dict d "" ".")).
  rewrite flatten_members_scalars.
  - apply dict_of_items_distinct, dict_of_items_NoDup.
  - intros k v Hin. apply flatten_dict_sound in Hin.
    eapply spec_path_scalar; eauto.
Qed.

Lemma flatten_idempotent_witness :
  flatten (flatten [("a", VList [VDict [("b", VInt 1)]; VInt 2])])
  = flatten [("a", VList [VDict [("b", VInt 1)]; VInt 2])].
Proof. apply flatten_idempotent. reflexivity. Defined.

Lemma spec_path_prefix sep p d key x :
  spec_path sep p d key x -> p <> "" ->
  exists rest, key = (p ++ sep ++ rest)%string.
Proof.
  induction 1 as [p d k v Hin Hd Hl
                 |p d k d' key x Hin _ IH
                 |p d k l i item Hin Hi Hd
                 |p d k l i d' key x Hin Hi _ IH]; intros Hp.
  - exists k. now destruct p.
  - destruct IH as [rest ->]; [destruct p; [tauto | discriminate]|].
    exists (k ++ sep ++ rest)%string. destruct p; [tauto|].
    unfold spec_prefix. now rewrite !append_assoc.
  - exists (k ++ "[" ++ str_of_nat i ++ "]")%string. destruct p; [tauto|].
    unfold index_key, spec_prefix. now rewrite !append_assoc.
  - destruct IH as [rest ->].
    { unfold index_key. destruct (spec_prefix p sep k); discriminate. }
    exists (k ++ "[" ++ str_of_nat i ++ "]" ++ sep ++ rest)%string.
    destruct p; [tauto|].
    unfold index_key, spec_prefix. now rewrite !append_assoc.
Qed.

(** X3. Under a parent key that is not empty every key of the result starts
    with the parent key followed by the separator. *)
Theorem flatten_keys_under_parent (d : dict) (parent_key sep key : string) :
  parent_key <> "" ->
  dict_mem key (flatten_dict d parent_key sep) = true ->
  exists rest, key = (parent_key ++ sep ++ rest)%string.
Proof.
  intros Hp H. apply dict_mem_keys in H.
  apply in_map_iff in H as ([key' x] & <- & H).
  apply flatten_dict_sound in H. eapply spec_path_prefix; eauto.
Qed.

Lemma flatten_keys_under_parent_witness :
  exists rest, "cfg.a[0]" = ("cfg" ++ "." ++ rest)%string.
Proof.
  apply (flatten_keys_under_parent [("a", VList [VInt 1])] "cfg" "." "cfg.a[0]").
  - discriminate.
  - reflexivity.
Defined.

(** X4. When two paths give the same key the later one wins: a scalar that
    is the last member of the mapping is the value at its key, whatever the
    members before it flattened to. *)
Theorem flatten_last_member_wins (d : dict) (parent_key sep k : string)
    (v : value) :
  is_scalar v = true ->
  dict_get (new_key parent_key sep k)
    (flatten_dict (d ++ [(k, v)]) parent_key sep) = Some v.
Proof.
  intros Hv. rewrite flatten_dict_eq, flatten_members_app. simpl.
  rewrite app_nil_r.
  replace (flatten_member (fun v0 key => flatten_value v0 key sep)
             (new_key parent_key sep k) v)
    with [(new_key parent_key sep k, v)] by now destruct v.
  rewrite dict_of_items_snoc. apply dict_get_set_same.
Qed.

Lemma flatten_last_member_wins_witness :
  dict_get "a.b" (flatten [("a", VDict [("b", VInt 1)]); ("a.b", VInt 2)])
  = Some (VInt 2).
Proof.
  apply (flatten_last_member_wins [("a", VDict [("b", VInt 1)])] "" "." "a.b"
           (VInt 2)).
  reflexivity.
Defined.

Lemma NoDup_map_injective {A B} (f : A -> B) l :
  (forall x y, f x = f y -> x = y) -> NoDup l -> NoDup (map f l).
Proof.
  intros Hf. induction 1 as [|a l Ha _ IH]; simpl; constructor; [|exact IH].
  intros Hin. apply in_map_iff in Hin as (b & E & Hb).
  apply Hf in E. now subst.
Qed.

Lemma flatten_elements_plain rec key l : forall i,
  (forall x, In x l -> is_dict x = false) ->
  flatten_elements rec key i l
  = map (fun ix => (index_key key (fst ix), snd ix))
      (combine (seq i (List.length l)) l).
Proof.
  induction l as [|x l IH]; intros i H; simpl; [reflexivity|].
  rewrite (H x (or_introl eq_refl)), IH by (intros; apply H; now right).
  reflexivity.
Qed.

Lemma indexed_keys key (l : list value) : forall i,
  map fst (map (fun ix : nat * value => (index_key key (fst ix), snd ix))
             (combine (seq i (List.length l)) l))
  = map (index_key key) (seq i (List.length l)).
Proof.
  induction l as [|x l IH]; intros i; simpl; [reflexivity|]. now rewrite IH.
Qed.

(** X5. A member holding a sequence without mappings gives one entry for
    each element, keyed by its index in brackets, in the order of the
    sequence: nothing is dropped or merged. *)
Theorem flatten_sequence_indexed (k parent_key sep : string) (l : list value) :
  (forall x, In x l -> is_dict x = false) ->
  flatten_dict [(k, VList l)] parent_key sep
  = map (fun ix => (index_key (new_key parent_key sep k) (fst ix), snd ix))
      (combine (seq 0 (List.length l)) l).
Proof.
  intros H. rewrite flatten_dict_eq. simpl. rewrite app_nil_r.
  rewrite flatten_elements_plain by assumption.
  apply dict_of_items_distinct. rewrite indexed_keys.
  apply NoDup_map_injective; [apply index_key_inj | apply seq_NoDup].
Qed.

Lemma flatten_sequence_indexed_witness :
  flatten_dict [("a", VList [VInt 1; VList [VInt 2]])] "" "."
  = [("a[0]", VInt 1); ("a[1]", VList [VInt 2])].
Proof.
  apply (flatten_sequence_indexed "a" "" "." [VInt 1; VList [VInt 2]]).
  intros x [<-|[<-|[]]]; reflexivity.
Defined.

(** ** The config differ, further *)

Lemma insert_sorted_length k l :
  List.length (insert_sorted k l) = S (List.length l).
Proof.
  induction l as [|a l IH]; simpl; [reflexivity|].
  destruct (k <=? a)%string; simpl; [reflexivity | now rewrite IH].
Qed.

Lemma sorted_length l : List.length (sorted l) = List.length l.
Proof.
  induction l as [|a l IH]; simpl; [reflexivity|].
  now rewrite insert_sorted_length, IH.
Qed.

(** X6. The four counts of the summary add up to the number of distinct
    keys of the two flattened configurations. *)
Theorem diff_counts_add_up (flat_default flat_customer : dict) :
  let r := diff flat_default flat_customer in
  List.length (different_values r) + List.length (only_in_customer r)
  + List.length (only_in_default r) + List.length (same_values r)
  = List.length (all_keys flat_default flat_customer).
Proof.
  intros r. subst r. rewrite diff_eq. cbv zeta. simpl.
  rewrite !length_map.
  pose proof (Permutation_length
                (four_filters_perm flat_default flat_customer
                   (visited_keys flat_default flat_customer))) as H.
  rewrite !length_app in H. unfold visited_keys at 5 in H.
  rewrite sorted_length in H. lia.
Qed.






(** ** The comparison report, further *)

Lemma for_each_quiet {A} (l : list A) (body : A -> M unit) :
  (forall x, outcome (body x) = Ok tt /\ requests_sent (body x) = 0) ->
  outcome (for_each l body) = Ok tt /\ requests_sent (for_each l body) = 0.
Proof.
  intros H. induction l as [|x l [IH1 IH2]]; simpl; [split; reflexivity|].
  destruct (H x) as [H1 H2].
  rewrite outcome_bind, requests_sent_bind, H1, H2. auto.
Qed.

Lemma display_quiet r :
  outcome (display r) = Ok tt /\ requests_sent (display r) = 0.
Proof.
  unfold display.
  assert (H3 : forall (l : list (string * value * value)),
             outcome (for_each l (fun t =>
               print "Key: {}" [VStr (fst (fst t))] ;;
               print "  Default:  {}" [snd (fst t)] ;;
               print "  Customer: {}" [snd t] ;;
               print "" [])) = Ok tt /\
             requests_sent (for_each l (fun t =>
               print "Key: {}" [VStr (fst (fst t))] ;;
               print "  Default:  {}" [snd (fst t)] ;;
               print "  Customer: {}" [snd t] ;;
               print "" [])) = 0).
  { intros l. apply for_each_quiet. intros x. split; reflexivity. }
  assert (H2 : forall (l : list (string * value)),
             outcome (for_each l (fun t =>
               print "Key: {}" [VStr (fst t)] ;;
               print "  Value: {}" [snd t] ;;
               print "" [])) = Ok tt /\
             requests_sent (for_each l (fun t =>
               print "Key: {}" [VStr (fst t)] ;;
               print "  Value: {}" [snd t] ;;
               print "" [])) = 0).
  { intros l. apply for_each_quiet. intros x. split; reflexivity. }
  rewrite !outcome_bind, !requests_sent_bind.
  destruct (different_values r) as [|x3 l3];
    destruct (only_in_customer r) as [|x2 l2];
    destruct (only_in_default r) as [|x1 l1];
    destruct (same_values r) as [|x0 l0];
    cbn [outcome ret snd];
    repeat (rewrite ?outcome_bind, ?requests_sent_bind;
            cbn [outcome print ret snd]);
    rewrite ?(proj1 (H3 _)), ?(proj2 (H3 _)), ?(proj1 (H2 _)), ?(proj2 (H2 _));
    repeat (rewrite ?outcome_bind, ?requests_sent_bind;
            cbn [outcome print ret snd];
            rewrite ?(proj1 (H3 _)), ?(proj2 (H3 _)),
              ?(proj1 (H2 _)), ?(proj2 (H2 _)));
    split; reflexivity.
Qed.

Lemma compare_configs_cases (default_config customer_config : dict) :
  let customer_data := dict_get_default "data" (VDict []) customer_config in
  let default_data := dict_get_default "data" (VDict []) default_config in
  outcome (compare_configs (VDict default_config) (VDict customer_config)) =
    (if truthy customer_data && negb (is_dict default_data && is_dict customer_data)
     then Raised AttributeError else Ok tt) /\
  requests_sent (compare_configs (VDict default_config) (VDict customer_config))
  = 0.
Proof.
  intros customer_data default_data. unfold compare_configs, py_get.
  cbn [print ret bind app]. fold customer_data default_data.
  clearbody customer_data default_data.
  assert (Hn : negb (truthy customer_data) || is_none customer_data
               = negb (truthy customer_data))
    by (destruct customer_data; simpl; rewrite ?orb_false_r; reflexivity).
  rewrite Hn. destruct (truthy customer_data); cbn [negb andb];
    [|split; reflexivity].
  unfold flatten_data.
  destruct default_data as [| | | | |dd]; try (split; reflexivity).
  destruct customer_data as [| | | | |cd]; try (split; reflexivity).
  cbn [ret bind app is_dict andb negb].
  destruct (display_quiet (diff (flatten dd) (flatten cd))) as [H1 H2].
  destruct (display (diff (flatten dd) (flatten cd))) as [t r].
  unfold requests_sent, outcome, trace in *. simpl in *. auto.
Qed.

(** X8. [compare_configs] raises [AttributeError] when a configuration is
    no mapping, and when the customer data is not empty while the default
    data or the customer data is no mapping; in every other case it prints
    its report and returns. *)
Theorem compare_configs_outcome (default_config customer_config : value) :
  outcome (compare_configs default_config customer_config) =
  match default_config, customer_config with
  | VDict dc, VDict cc =>
      let customer_data := dict_get_default "data" (VDict []) cc in
      let default_data := dict_get_default "data" (VDict []) dc in
      if truthy customer_data
         && negb (is_dict default_data && is_dict customer_data)
      then Raised AttributeError else Ok tt
  | _, _ => Raised AttributeError
  end.
Proof.
  destruct customer_config as [| | | | |cc];
    try (destruct default_config; reflexivity).
  destruct default_config as [| | | | |dc]; try reflexivity.
  apply compare_configs_cases.
Qed.

Lemma compare_configs_sends_nothing (default_config customer_config : value) :
  requests_sent (compare_configs default_config customer_config) = 0.
Proof.
  destruct customer_config as [| | | | |cc];
    try (destruct default_config; reflexivity).
  destruct default_config as [| | | | |dc]; try reflexivity.
  apply compare_configs_cases.
Qed.

(** ** The comparison script *)

Lemma get_harness_config_default net env :
  unset (HARNESS_ACCT_ID env) = false -> unset (HARNESS_API_TOKEN env) = false ->
  outcome (CompareConfig.get_harness_config net env "default")
    = Ok (fetched (default_reply net env)) /\
  requests_sent (CompareConfig.get_harness_config net env "default") = 1.
Proof.
  intros Ha Hk. unfold CompareConfig.get_harness_config, default_reply.
  rewrite Ha, Hk. simpl.
  match goal with |- context [net ?u ?p ?h] => destruct (net u p h) end;
    split; reflexivity.
Qed.

Lemma get_harness_config_customer net env :
  unset (HARNESS_ACCT_ID env) = false -> unset (HARNESS_API_TOKEN env) = false ->
  outcome (CompareConfig.get_harness_config net env "customer")
    = Ok (fetched (customer_reply net env)) /\
  requests_sent (CompareConfig.get_harness_config net env "customer") = 1.
Proof.
  intros Ha Hk. unfold CompareConfig.get_harness_config, customer_reply.
  rewrite Ha, Hk. simpl.
  match goal with |- context [net ?u ?p ?h] => destruct (net u p h) end;
    split; reflexivity.
Qed.

(** X9. [get_harness_config] raises [ValueError] before sending anything
    when a variable is missing or the endpoint type is neither [default] nor
    [customer]; otherwise it sends one request and returns its body, or the
    empty mapping when the request fails, and does not raise. *)
Theorem get_harness_config_cases net (env : environ) (endpoint_type : string) :
  (unset (HARNESS_ACCT_ID env) = true \/ unset (HARNESS_API_TOKEN env) = true \/
   (endpoint_type <> "default" /\ endpoint_type <> "customer") ->
   CompareConfig.get_harness_config net env endpoint_type = ([], Raised ValueError)) /\
  (unset (HARNESS_ACCT_ID env) = false -> unset (HARNESS_API_TOKEN env) = false ->
   (outcome (CompareConfig.get_harness_config net env "default")
      = Ok (fetched (default_reply net env)) /\
    requests_sent (CompareConfig.get_harness_config net env "default") = 1) /\
   (outcome (CompareConfig.get_harness_config net env "customer")
      = Ok (fetched (customer_reply net env)) /\
    requests_sent (CompareConfig.get_harness_config net env "customer") = 1)).
Proof.
  split.
  - intros H. unfold CompareConfig.get_harness_config.
    destruct (unset (HARNESS_ACCT_ID env)) eqn:Ha; [reflexivity|].
    destruct (unset (HARNESS_API_TOKEN env)) eqn:Hk; [reflexivity|].
    destruct H as [H|[H|[H1 H2]]]; try discriminate.
    apply String.eqb_neq in H1, H2. simpl. now rewrite H1, H2.
  - intros Ha Hk. split.
    + now apply get_harness_config_default.
    + now apply get_harness_config_customer.
Qed.

Lemma get_harness_config_cases_witness :
  CompareConfig.get_harness_config (fun _ _ _ => Failure None)
    (mkEnv (Some "token") (Some "account")) "other"
  = ([], Raised ValueError).
Proof.
  apply (proj1 (get_harness_config_cases (fun _ _ _ => Failure None)
                  (mkEnv (Some "token") (Some "account")) "other")).
  right. right. split; discriminate.
Defined.

Lemma get_harness_config_default_run net env :
  unset (HARNESS_ACCT_ID env) = false -> unset (HARNESS_API_TOKEN env) = false ->
  exists t, CompareConfig.get_harness_config net env "default"
            = (t, Ok (fetched (default_reply net env))) /\
            List.length (filter is_request t) = 1 /\
            existsb diffing_line t = false.
Proof.
  intros Ha Hk. unfold CompareConfig.get_harness_config, default_reply.
  rewrite Ha, Hk. simpl.
  match goal with |- context [net ?u ?p ?h] => destruct (net u p h) end;
    eexists; repeat split.
Qed.

Lemma get_harness_config_customer_run net env :
  unset (HARNESS_ACCT_ID env) = false -> unset (HARNESS_API_TOKEN env) = false ->
  exists t, CompareConfig.get_harness_config net env "customer"
            = (t, Ok (fetched (customer_reply net env))) /\
            List.length (filter is_request t) = 1 /\
            existsb diffing_line t = false.
Proof.
  intros Ha Hk. unfold CompareConfig.get_harness_config, customer_reply.
  rewrite Ha, Hk. simpl.
  match goal with |- context [net ?u ?p ?h] => destruct (net u p h) end;
    eexists; repeat split.
Qed.

(** X10. With both variables set the comparison script sends exactly two
    requests.  When a fetch fails or gives an empty body it prints the
    failure line, compares nothing and still ends with status 0; when both
    bodies are non-empty it ends as [compare_configs] does on them. *)
Theorem compare_main_fetches_twice net (env : environ) :
  unset (HARNESS_ACCT_ID env) = false -> unset (HARNESS_API_TOKEN env) = false ->
  let default_config := fetched (default_reply net env) in
  let customer_config := fetched (customer_reply net env) in
  requests_sent (CompareConfig.main net env) = 2 /\
  (truthy default_config = false \/ truthy customer_config = false ->
   exit_code (CompareConfig.main net env) = Some 0 /\
   existsb diffing_line (trace (CompareConfig.main net env)) = false /\
   In (Print "Failed to fetch one or both configurations. Please check your credentials and network connection." [])
     (trace (CompareConfig.main net env))) /\
  (truthy default_config = true -> truthy customer_config = true ->
   outcome (CompareConfig.main net env)
   = outcome (compare_configs default_config customer_config)).
Proof.
  intros Ha Hk default_config customer_config.
  unfold CompareConfig.main.
  destruct (get_harness_config_default_run net env Ha Hk) as (td & Ed & Ld & Dd).
  destruct (get_harness_config_customer_run net env Ha Hk) as (tc & Ec & Lc & Dc).
  fold default_config in Ed. fold customer_config in Ec. rewrite Ed, Ec.
  cbn [print bind app].
  pose proof (compare_configs_sends_nothing default_config customer_config) as Hq.
  remember (if negb (truthy default_config) || negb (truthy customer_config)
            then print "Failed to fetch one or both configurations. Please check your credentials and network connection." []
            else compare_configs default_config customer_config) as tail eqn:E.
  destruct tail as [t r]. unfold print in E.
  unfold requests_sent, exit_code, outcome, trace in *. cbn [fst snd].
  assert (Ht : List.length (filter is_request t) = 0).
  { destruct (negb (truthy default_config) || negb (truthy customer_config)).
    - now injection E as -> ->.
    - now rewrite <- E in Hq. }
  split.
  { cbn [filter is_request]. rewrite filter_app, length_app. cbn [filter is_request].
    rewrite filter_app, length_app, Ld, Lc, Ht. reflexivity. }
  split.
  - intros H.
    assert (Hf : negb (truthy default_config) || negb (truthy customer_config)
                 = true).
    { destruct H as [-> | ->]; [reflexivity | apply orb_true_r]. }
    rewrite Hf in E. injection E as -> ->.
    split; [reflexivity|]. split.
    + cbn [existsb diffing_line]. rewrite existsb_app, Dd.
      cbn [existsb diffing_line orb]. rewrite existsb_app, Dc. reflexivity.
    + right. right. apply in_or_app. right. right. apply in_or_app. right.
      now left.
  - intros Hd Hc. rewrite Hd, Hc in E. cbn [negb orb] in E. now rewrite <- E.
Qed.

Lemma compare_main_fetches_twice_witness :
  requests_sent
    (CompareConfig.main (fun _ _ _ => Failure None)
       (mkEnv (Some "token") (Some "account"))) = 2.
Proof.
  exact (proj1 (compare_main_fetches_twice (fun _ _ _ => Failure None)
                  (mkEnv (Some "token") (Some "account")) eq_refl eq_refl)).
Defined.

(** ** The API client, further *)

(** X11. [_make_request] never raises, in either file: it sends one request,
    to the base URL plus the endpoint for a pipeline endpoint and with
    [/ng/api] in between for any other, and returns the decoded body, or
    [None] when the request fails.  On a failure without response, or with
    status 404, the one of pipelineAppIDs prints nothing. *)
Theorem make_request_never_raises net (self : client) (m e : string)
    (p : dict) (d : option value) :
  let url := if String.prefix "/pipeline/api/" e
             then (base_url self ++ e)%string
             else (base_url self ++ "/ng/api" ++ e)%string in
  outcome (ByOrg._make_request net self m e p d) = Ok (body (net m url p d)) /\
  requests_of (ByOrg._make_request net self m e p d) = [Request m url p d] /\
  outcome (AppIDs._make_request net self m e p d) = Ok (body (net m url p d)) /\
  requests_of (AppIDs._make_request net self m e p d) = [Request m url p d] /\
  (net m url p d = Failure None \/ net m url p d = Failure (Some 404) ->
   trace (AppIDs._make_request net self m e p d) = [Request m url p d]).
Proof.
  intros url. change url with (request_url self e). clear url.
  split; [apply ByOrg_make_request_outcome|].
  split; [apply ByOrg_make_request_requests|].
  split; [apply AppIDs_make_request_outcome|].
  split; [apply AppIDs_make_request_requests|].
  unfold AppIDs._make_request. intros [-> | ->]; reflexivity.
Qed.

Lemma make_request_never_raises_witness :
  trace (AppIDs._make_request (fun _ _ _ _ => Failure (Some 404)) example_client
           "GET" "/organizations" [] None)
  = [Request "GET" "https://app.harness.io/ng/api/organizations" [] None].
Proof.
  apply (make_request_never_raises (fun _ _ _ _ => Failure (Some 404))
           example_client "GET" "/organizations" [] None).
  now right.
Defined.

Section WalkerErrors.
Variable session_request : string -> string -> dict -> option value -> reply.
Variable make_request : string -> string -> dict -> option value -> M value.
Variable self : client.

Hypothesis make_request_outcome : forall m e p d,
  outcome (make_request m e p d)
  = Ok (body (session_request m (request_url self e) p d)).
Hypothesis make_request_requests : forall m e p d,
  requests_of (make_request m e p d) = [Request m (request_url self e) p d].

Let first_reply : reply :=
  session_request "GET" (request_url self "/organizations")
    (page_params self 0) None.

(** what the first turn of the loop raises on a reply that is no page *)
Lemma first_page_raises fuel :
  (truthy (body first_reply) = true -> is_dict (body first_reply) = false ->
   outcome (get_organizations make_request self (S fuel)) = Raised AttributeError) /\
  (forall resp data,
     body first_reply = VDict resp -> resp <> [] ->
     dict_get "data" resp = Some data ->
     truthy data = true -> is_dict data = false ->
     outcome (get_organizations make_request self (S fuel)) = Raised AttributeError) /\
  (forall resp data n,
     body first_reply = VDict resp -> resp <> [] ->
     dict_get "data" resp = Some (VDict data) -> data <> [] ->
     dict_get "content" data = Some (VInt n) -> n <> 0%Z ->
     outcome (get_organizations make_request self (S fuel)) = Raised TypeError).
Proof.
  unfold get_organizations.
  change (organizations_params self) with (page_params self 0).
  cbn [organizations_loop]. unfold organizations_page.
  rewrite set_page_index.
  pose proof (make_request_outcome "GET" "/organizations" (page_params self 0) None)
    as Ho. fold first_reply in Ho.
  destruct (make_request "GET" "/organizations" (page_params self 0) None)
    as [t r]. unfold outcome in *. simpl in Ho. subst r. cbn [bind].
  repeat split.
  - intros T D. rewrite T. cbn [negb].
    destruct (body first_reply); try discriminate; reflexivity.
  - intros resp data E Hne Hd T D. rewrite E.
    assert (T0 : truthy (VDict resp) = true) by now destruct resp.
    rewrite T0. cbn [negb py_get ret bind app]. unfold dict_get_default.
    rewrite Hd, T. cbn [negb].
    destruct data; try discriminate; reflexivity.
  - intros resp data n E Hne Hd Hne' Hc Hn. rewrite E.
    assert (T0 : truthy (VDict resp) = true) by now destruct resp.
    assert (T1 : truthy (VDict data) = true) by now destruct data.
    rewrite T0. cbn [negb py_get ret bind app]. unfold dict_get_default.
    rewrite Hd, T1. cbn [negb py_get ret bind app]. unfold dict_get_default.
    rewrite Hc. simpl.
    destruct (Z.eqb_spec n 0); [contradiction | reflexivity].
Qed.
End WalkerErrors.

(** X12. [get_organizations] lets through what the shape of the first
    response makes Python raise, in both files: [AttributeError] for a
    non-empty response or [data] field that is no mapping, [TypeError] for a
    [content] field that is a non-zero number. *)
Theorem get_organizations_raises_on_bad_shape net (self : client) (fuel : nat) :
  let first := body (net "GET" (request_url self "/organizations")
                       (page_params self 0) None) in
  (truthy first = true -> is_dict first = false ->
   outcome (ByOrg.get_organizations net self (S fuel)) = Raised AttributeError /\
   outcome (AppIDs.get_organizations net self (S fuel)) = Raised AttributeError) /\
  (forall resp data,
     first = VDict resp -> resp <> [] -> dict_get "data" resp = Some data ->
     truthy data = true -> is_dict data = false ->
     outcome (ByOrg.get_organizations net self (S fuel)) = Raised AttributeError /\
     outcome (AppIDs.get_organizations net self (S fuel)) = Raised AttributeError) /\
  (forall resp data n,
     first = VDict resp -> resp <> [] ->
     dict_get "data" resp = Some (VDict data) -> data <> [] ->
     dict_get "content" data = Some (VInt n) -> n <> 0%Z ->
     outcome (ByOrg.get_organizations net self (S fuel)) = Raised TypeError /\
     outcome (AppIDs.get_organizations net self (S fuel)) = Raised TypeError).
Proof.
  intros first.
  pose proof (first_page_raises net (ByOrg._make_request net self) self
                (ByOrg_make_request_outcome net self) fuel) as (B1 & B2 & B3).
  pose proof (first_page_raises net (AppIDs._make_request net self) self
                (AppIDs_make_request_outcome net self) fuel) as (A1 & A2 & A3).
  repeat split; eauto.
Qed.

Lemma get_organizations_raises_on_bad_shape_witness :
  outcome (ByOrg.get_organizations
             (fun _ _ _ _ => Body (VList [VStr "org"])) example_client 1)
  = Raised AttributeError.
Proof.
  apply (proj1 (get_organizations_raises_on_bad_shape
                  (fun _ _ _ _ => Body (VList [VStr "org"])) example_client 0));
    reflexivity.
Defined.

Lemma firstn_plus {A} (a b : nat) (l : list A) :
  firstn (a + b) l = firstn a l ++ firstn b (skipn a l).
Proof.
  revert l. induction a as [|a IH]; intros l; [reflexivity|].
  destruct l as [|x l]; simpl.
  - now rewrite firstn_nil.
  - now rewrite IH.
Qed.

Lemma pages_concat (all : list value) (pageSize : nat) : forall n,
  flat_map (page_of all pageSize) (seq 0 n) = firstn (n * pageSize) all.
Proof.
  induction n as [|n IH]; [reflexivity|].
  rewrite seq_S, flat_map_app, IH. simpl. rewrite app_nil_r.
  unfold page_of. rewrite <- firstn_plus. f_equal. lia.
Qed.

Lemma page_of_not_empty (all : list value) page :
  page * 100 < List.length all -> page_of all 100 page <> [].
Proof.
  intros H E. apply (f_equal (@List.length value)) in E.
  unfold page_of in E. rewrite length_firstn, length_skipn in E.
  cbn [List.length] in E. lia.
Qed.

Lemma pages_needed_tight total :
  0 < total -> (pages_needed total 100 - 1) * 100 < total /\ 1 <= pages_needed total 100.
Proof.
  intros H. unfold pages_needed.
  pose proof (Nat.div_mod_eq (total + 100 - 1) 100) as E.
  pose proof (Nat.mod_upper_bound (total + 100 - 1) 100) as U.
  lia.
Qed.

Section WalkerComplete.
Variable session_request : string -> string -> dict -> option value -> reply.
Variable make_request : string -> string -> dict -> option value -> M value.
Variable self : client.

Hypothesis make_request_outcome : forall m e p d,
  outcome (make_request m e p d)
  = Ok (body (session_request m (request_url self e) p d)).
Hypothesis make_request_requests : forall m e p d,
  requests_of (make_request m e p d) = [Request m (request_url self e) p d].

Let server (page : nat) : reply :=
  session_request "GET" (request_url self "/organizations")
    (page_params self page) None.

Lemma exact_page_read all page :
  paging_exactly server all -> page * 100 < List.length all ->
  read_page (server page)
  = Some (Page (page_of all 100 page)
            (List.length all <=? (page + 1) * 100)%nat).
Proof.
  intros W Hp. destruct (W page) as (resp & d & E & Hd & Hc & Hl).
  rewrite E. unfold read_page. cbn [body].
  assert (T : truthy (VDict resp) = true) by now destruct resp.
  assert (T1 : truthy (VDict d) = true) by now destruct d.
  rewrite T. cbn [negb]. unfold dict_get_default at 1 2. rewrite Hd, T1.
  cbn [negb]. unfold dict_get_default. rewrite Hc, Hl.
  pose proof (page_of_not_empty all page Hp) as Hne.
  destruct (page_of all 100 page); [contradiction | reflexivity].
Qed.

Lemma walker_lists_everything all fuel :
  paging_exactly server all -> all <> [] ->
  pages_needed (List.length all) 100 <= fuel ->
  outcome (get_organizations make_request self fuel) = Ok all /\
  requests_sent (get_organizations make_request self fuel)
  = pages_needed (List.length all) 100.
Proof.
  intros W Hne Hfuel.
  assert (Hlen : 0 < List.length all) by (destruct all; [contradiction | simpl; lia]).
  destruct (pages_needed_tight _ Hlen) as [Ht H1].
  pose proof (pages_needed_covers (List.length all)) as Hc.
  set (N := pages_needed (List.length all) 100) in *.
  pose proof (walker_meets_contract session_request make_request self
                make_request_outcome make_request_requests) as (Run & _ & _).
  fold server in Run.
  destruct (Run (fun p => Page (page_of all 100 p)
                            (List.length all <=? (p + 1) * 100)%nat)
              (N - 1) fuel) as [Hq Ho].
  - intros p Hp. apply exact_page_read; [assumption | nia].
  - intros p Hp. cbn [spec_stops]. apply Nat.leb_gt. nia.
  - cbn [spec_stops]. apply Nat.leb_le. nia.
  - lia.
  - replace (S (N - 1)) with N in * by lia. split.
    + rewrite Ho. f_equal. cbn [items_of].
      change (fun p => page_of all 100 p) with (page_of all 100).
      rewrite pages_concat. apply firstn_all2. lia.
    + unfold requests_sent. unfold requests_of in Hq.
      now rewrite Hq, length_map, length_seq.
Qed.
End WalkerComplete.

(** X13. Against a server that pages exactly and flags its last page,
    [get_organizations] returns all the organizations, in order and each
    once, after ceil(total/100) requests (in both files). *)
Theorem get_organizations_lists_everything net (self : client)
    (all : list value) (fuel : nat) :
  paging_exactly
    (fun page => net "GET" (request_url self "/organizations")
                   (page_params self page) None) all ->
  all <> [] ->
  pages_needed (List.length all) 100 <= fuel ->
  (outcome (ByOrg.get_organizations net self fuel) = Ok all /\
   requests_sent (ByOrg.get_organizations net self fuel)
   = pages_needed (List.length all) 100) /\
  (outcome (AppIDs.get_organizations net self fuel) = Ok all /\
   requests_sent (AppIDs.get_organizations net self fuel)
   = pages_needed (List.length all) 100).
Proof.
  intros W Hne Hfuel. split.
  - apply (walker_lists_everything net (ByOrg._make_request net self) self);
      auto using ByOrg_make_request_outcome, ByOrg_make_request_requests.
  - apply (walker_lists_everything net (AppIDs._make_request net self) self);
      auto using AppIDs_make_request_outcome, AppIDs_make_request_requests.
Qed.

Lemma get_organizations_lists_everything_witness :
  outcome (ByOrg.get_organizations (exact_server [VStr "a"; VStr "b"])
             example_client 3)
  = Ok [VStr "a"; VStr "b"].
Proof.
  refine (proj1 (proj1 (get_organizations_lists_everything
            (exact_server [VStr "a"; VStr "b"]) example_client
            [VStr "a"; VStr "b"] 3 _ _ _))).
  - intros page.
    exists [("data",
             VDict [("content", VList (page_of [VStr "a"; VStr "b"] 100 page));
                    ("last", VBool (2 <=? (page + 1) * 100)%nat)])],
      [("content", VList (page_of [VStr "a"; VStr "b"] 100 page));
       ("last", VBool (2 <=? (page + 1) * 100)%nat)].
    split; [|repeat split].
    unfold exact_server, page_params, nat_value.
    cbn [dict_get String.eqb Ascii.eqb Bool.eqb List.length].
    now rewrite Nat2Z.id.
  - discriminate.
  - vm_compute. lia.
Defined.

(** ** The projects walker *)

Lemma set_project_page_index self org q page :
  dict_set (project_page_params self org q) "pageIndex" (nat_value page)
  = project_page_params self org page.
Proof. reflexivity. Qed.

Lemma well_behaved_reads_any (server : nat -> reply) all page :
  well_behaved server all 100 ->
  exists pr, read_page (server page) = Some pr /\
             (pages_needed (List.length all) 100 <= page -> spec_stops pr = true).
Proof.
  intros W. destruct (W page) as [[st E]|(resp & d & E & Hd & Hc)].
  - rewrite E. now exists Absent.
  - rewrite E. unfold read_page. cbn [body].
    assert (T : truthy (VDict resp) = true) by now destruct resp.
    assert (T1 : truthy (VDict d) = true) by now destruct d.
    rewrite T. cbn [negb]. unfold dict_get_default at 1 2. rewrite Hd, T1.
    cbn [negb]. unfold dict_get_default at 1 2. rewrite Hc.
    destruct (page_of all 100 page) as [|x l] eqn:P.
    + now exists NoContent.
    + eexists. split; [reflexivity|]. intros Hp.
      rewrite page_of_past_end in P by assumption. discriminate.
Qed.

Section ProjectsFacts.
Variable session_request : string -> string -> dict -> option value -> reply.
Variable make_request : string -> string -> dict -> option value -> M value.
Variable self : client.
Variable org : string.

Hypothesis make_request_outcome : forall m e p d,
  outcome (make_request m e p d)
  = Ok (body (session_request m (request_url self e) p d)).
Hypothesis make_request_requests : forall m e p d,
  requests_of (make_request m e p d) = [Request m (request_url self e) p d].

Let server (page : nat) : reply :=
  session_request "GET" (request_url self "/projects")
    (project_page_params self org page) None.

Lemma projects_page_step q page projects pr :
  read_page (server page) = Some pr ->
  requests_of (projects_page make_request (project_page_params self org q) page
                 projects) = [project_request self org page] /\
  outcome (projects_page make_request (project_page_params self org q) page
             projects)
  = Ok (if spec_stops pr then inl (projects ++ items_of pr)
        else inr (projects ++ items_of pr)).
Proof.
  intros Hr. unfold projects_page. rewrite set_project_page_index.
  pose proof (make_request_outcome "GET" "/projects"
                (project_page_params self org page) None) as Ho.
  pose proof (make_request_requests "GET" "/projects"
                (project_page_params self org page) None) as Hq.
  fold (server page) in Ho.
  destruct (make_request "GET" "/projects" (project_page_params self org page) None)
    as [t r]. unfold requests_of, trace, outcome in *. simpl in Ho, Hq.
  subst r. unfold read_page in Hr. cbn [bind].
  destruct (truthy (body (server page))) eqn:T; simpl in Hr.
  2:{ injection Hr as <-. simpl. rewrite app_nil_r.
      split; [assumption | now rewrite app_nil_r]. }
  destruct (body (server page)) as [| | | | |resp]; try discriminate.
  cbn [negb py_get ret bind app].
  destruct (truthy (dict_get_default "data" VNone resp)) eqn:T1; simpl in Hr.
  2:{ injection Hr as <-. simpl. rewrite !app_nil_r.
      split; [assumption | reflexivity]. }
  destruct (dict_get_default "data" VNone resp) as [| | | | |d]; try discriminate.
  cbn [negb py_get ret bind app].
  destruct (truthy (dict_get_default "content" VNone d)) eqn:T2; simpl in Hr.
  2:{ injection Hr as <-. simpl. rewrite !app_nil_r.
      split; [assumption | reflexivity]. }
  destruct (dict_get_default "content" VNone d) as [| | | |l|]; try discriminate.
  injection Hr as <-. cbn [negb py_iter py_get ret bind app spec_stops items_of].
  destruct (truthy (dict_get_default "last" (VBool true) d)); simpl;
    rewrite !app_nil_r; (split; [assumption | reflexivity]).
Qed.

Lemma projects_loop_runs (pages : nat -> page_result) n :
  forall page fuel projects q,
    (forall i, i <= n -> read_page (server (page + i)) = Some (pages (page + i))) ->
    (forall i, i < n -> spec_stops (pages (page + i)) = false) ->
    spec_stops (pages (page + n)) = true ->
    n < fuel ->
    requests_of (projects_loop make_request fuel (project_page_params self org q)
                   page projects)
    = map (project_request self org) (seq page (S n)) /\
    outcome (projects_loop make_request fuel (project_page_params self org q)
               page projects)
    = Ok (projects ++ flat_map (fun p => items_of (pages p)) (seq page (S n))).
Proof.
  induction n as [|n IH]; intros page fuel projects q Hr Hgo Hstop Hfuel;
    (destruct fuel as [|fuel]; [lia|]);
    pose proof (Hr 0 ltac:(lia)) as Hr0; rewrite Nat.add_0_r in Hr0;
    destruct (projects_page_step q page projects _ Hr0) as [Hq Ho];
    cbn [projects_loop]; unfold requests_of in *;
    rewrite trace_bind, outcome_bind, Ho.
  - rewrite Nat.add_0_r in Hstop. rewrite Hstop. simpl.
    rewrite !app_nil_r. split; [exact Hq | reflexivity].
  - pose proof (Hgo 0 ltac:(lia)) as H0. rewrite Nat.add_0_r in H0.
    rewrite H0, set_project_page_index, filter_app, Hq.
    destruct (IH (S page) fuel (projects ++ items_of (pages page)) page)
      as [IHq IHo]; try lia.
    + intros i Hi. replace (S page + i) with (page + S i) by lia.
      apply Hr. lia.
    + intros i Hi. replace (S page + i) with (page + S i) by lia.
      apply Hgo. lia.
    + replace (S page + n) with (page + S n) by lia. exact Hstop.
    + rewrite IHq, IHo. split; [reflexivity|].
      change (seq page (S (S n))) with (page :: seq (S page) (S n)).
      cbn [flat_map]. now rewrite app_assoc.
Qed.

Lemma projects_walker_meets_contract :
  pager_contract (project_request self org) server
    (fun fuel => get_projects_in_org make_request self fuel org).
Proof.
  unfold pager_contract, get_projects_in_org.
  change (projects_params self org) with (project_page_params self org 0).
  assert (Run : forall (pages : nat -> page_result) n fuel,
    (forall p, p <= n -> read_page (server p) = Some (pages p)) ->
    (forall p, p < n -> spec_stops (pages p) = false) ->
    spec_stops (pages n) = true ->
    n < fuel ->
    requests_of (projects_loop make_request fuel (project_page_params self org 0) 0 [])
      = map (project_request self org) (seq 0 (S n)) /\
    outcome (projects_loop make_request fuel (project_page_params self org 0) 0 [])
      = Ok (flat_map (fun p => items_of (pages p)) (seq 0 (S n)))).
  { intros pages n fuel Hr Hgo Hstop Hfuel.
    apply (projects_loop_runs pages n 0 fuel [] 0); auto. }
  split; [exact Run|].
  intros all fuel W Hfuel.
  set (N := pages_needed (List.length all) 100) in *.
  set (pages := fun p => match read_page (server p) with
                         | Some pr => pr
                         | None => Absent
                         end).
  assert (Hread : forall p, read_page (server p) = Some (pages p)).
  { intros p. destruct (well_behaved_reads_any server all p W) as (pr & E & _).
    unfold pages. now rewrite E. }
  assert (HN : spec_stops (pages N) = true).
  { destruct (well_behaved_reads_any server all N W) as (pr & E & Hs).
    unfold pages. rewrite E. apply Hs. apply Nat.le_refl. }
  destruct (first_true (fun p => spec_stops (pages p)) N HN)
    as (n & Hn & Hstop & Hgo).
  destruct (Run pages n fuel) as [Hq Ho]; auto; try lia.
  split; [eauto|]. unfold requests_sent. unfold requests_of in Hq.
  rewrite Hq, length_map, length_seq. lia.
Qed.
End ProjectsFacts.

(** X14. [get_projects_in_org] walks the pages of an organization's projects
    as [get_organizations] walks the organizations, in both files: it asks
    for page 0, 1, ... of [/projects] with the organization in the query,
    stops at the first page that is absent, without content or flagged last,
    and returns the content lists in order; on a well-behaved server it
    ends, after at most ceil(total/100)+1 requests. *)
Theorem get_projects_in_org_walks net (self : client) (org_identifier : string) :
  let server := fun page =>
    net "GET" (request_url self "/projects")
      (project_page_params self org_identifier page) None in
  pager_contract (project_request self org_identifier) server
    (fun fuel => ByOrg.get_projects_in_org net self fuel org_identifier) /\
  pager_contract (project_request self org_identifier) server
    (fun fuel => AppIDs.get_projects_in_org net self fuel org_identifier).
Proof.
  split.
  - apply (projects_walker_meets_contract net (ByOrg._make_request net self)).
    + apply ByOrg_make_request_outcome.
    + apply ByOrg_make_request_requests.
  - apply (projects_walker_meets_contract net (AppIDs._make_request net self)).
    + apply AppIDs_make_request_outcome.
    + apply AppIDs_make_request_requests.
Qed.

Lemma get_projects_in_org_walks_witness :
  requests_sent
    (AppIDs.get_projects_in_org (paging_server [VStr "p"]) example_client 5
       "default")
  <= pages_needed 1 100 + 1.
Proof.
  refine (proj2 (proj2 (proj2
            (get_projects_in_org_walks (paging_server [VStr "p"])
               example_client "default"))
            [VStr "p"] 5 _ _)).
  - intros page. right.
    exists [("data", VDict [("content", VList (page_of [VStr "p"] 100 page))])],
      [("content", VList (page_of [VStr "p"] 100 page))].
    split; [|split; reflexivity].
    unfold paging_server, project_page_params, nat_value.
    cbn [dict_get String.eqb Ascii.eqb Bool.eqb].
    now rewrite Nat2Z.id.
  - vm_compute. lia.
Defined.

(** ** The pipeline lister, further *)

Lemma ByOrg_pick_items_quiet response :
  catchable (outcome (ByOrg.pick_items response)) /\
  requests_sent (ByOrg.pick_items response) = 0.
Proof.
  unfold ByOrg.pick_items, py_get.
  destruct response as [| | | | |resp]; try (split; exact I || reflexivity).
  cbn [ret bind app].
  destruct (dict_get_default "data" (VDict resp) resp) as [| | | | |d];
    try (split; exact I || reflexivity).
  destruct (truthy (dict_get_default "content" VNone d)).
  { destruct (dict_get_default "content" VNone d);
      split; exact I || reflexivity. }
  destruct (truthy (dict_get_default "pipelines" VNone d)).
  { destruct (dict_get_default "pipelines" VNone d);
      split; exact I || reflexivity. }
  destruct (dict_mem "totalElements" d); split; exact I || reflexivity.
Qed.

Lemma AppIDs_pick_items_quiet response :
  catchable (outcome (AppIDs.pick_items response)) /\
  requests_sent (AppIDs.pick_items response) = 0.
Proof.
  unfold AppIDs.pick_items, py_get.
  destruct response as [| | | | |resp]; try (split; exact I || reflexivity).
  cbn [ret bind app].
  destruct (dict_get_default "data" (VDict resp) resp) as [| | | | |d];
    try (split; exact I || reflexivity).
  destruct (truthy (dict_get_default "content" VNone d));
    [split; exact I || reflexivity|].
  destruct (truthy (dict_get_default "pipelines" VNone d));
    split; exact I || reflexivity.
Qed.

Lemma try_except_catches {A} (m : M A) (h : exn -> M A) :
  catchable (outcome m) ->
  (forall e, (exists a, outcome (h e) = Ok a) /\ requests_sent (h e) = 0) ->
  (exists a, outcome (try_except m h) = Ok a) /\
  requests_sent (try_except m h) = requests_sent m.
Proof.
  intros Hc Hh. destruct m as [t [a|e|]]; simpl in Hc; try contradiction.
  - split; [now exists a | reflexivity].
  - destruct (Hh e) as [[a Ha] Hq].
    destruct e; try contradiction; simpl;
      destruct (h _) as [t' r'] eqn:E; unfold requests_sent, outcome, trace in *;
      simpl in *; subst r'; (split; [now exists a|]);
      rewrite filter_app, length_app, Hq; lia.
Qed.

Lemma ByOrg_attempt_runs net self a :
  (exists r, outcome (ByOrg.attempt net self a) = Ok r) /\
  requests_sent (ByOrg.attempt net self a) = 1.
Proof.
  unfold ByOrg.attempt.
  match goal with |- context [try_except ?m ?h] =>
    assert (Hm : catchable (outcome m) /\ requests_sent m = 1) end.
  { rewrite outcome_bind, requests_sent_bind, ByOrg_make_request_outcome.
    assert (R : requests_sent (ByOrg._make_request net self (method a)
                                 (endpoint a) (params a) (data a)) = 1).
    { unfold requests_sent. fold (requests_of (ByOrg._make_request net self
        (method a) (endpoint a) (params a) (data a))).
      now rewrite ByOrg_make_request_requests. }
    rewrite R.
    destruct (truthy (body _)); [|split; [exact I | reflexivity]].
    destruct (ByOrg_pick_items_quiet
                (body (net (method a) (request_url self (endpoint a))
                         (params a) (data a)))) as [H1 H2].
    rewrite H2. split; [exact H1 | reflexivity]. }
  destruct Hm as [Hc Hq].
  destruct (try_except_catches _ (fun e : exn => print "Failed: {}" [] ;; ret None)
              Hc) as [H1 H2].
  - intros e. split; [now exists None | reflexivity].
  - split; [exact H1 | now rewrite H2].
Qed.

Lemma AppIDs_attempt_runs net self a :
  (exists r, outcome (AppIDs.attempt net self a) = Ok r) /\
  requests_sent (AppIDs.attempt net self a) = 1.
Proof.
  unfold AppIDs.attempt.
  match goal with |- context [try_except ?m ?h] =>
    assert (Hm : catchable (outcome m) /\ requests_sent m = 1) end.
  { rewrite outcome_bind, requests_sent_bind, AppIDs_make_request_outcome.
    assert (R : requests_sent (AppIDs._make_request net self (method a)
                                 (endpoint a) (params a) (data a)) = 1).
    { unfold requests_sent. fold (requests_of (AppIDs._make_request net self
        (method a) (endpoint a) (params a) (data a))).
      now rewrite AppIDs_make_request_requests. }
    rewrite R.
    destruct (truthy (body _)); [|split; [exact I | reflexivity]].
    destruct (AppIDs_pick_items_quiet
                (body (net (method a) (request_url self (endpoint a))
                         (params a) (data a)))) as [H1 H2].
    rewrite H2. split; [exact H1 | reflexivity]. }
  destruct Hm as [Hc Hq].
  destruct (try_except_catches _ (fun e : exn => ret None) Hc) as [H1 H2].
  - intros e. split; [now exists None | reflexivity].
  - split; [exact H1 | now rewrite H2].
Qed.

Lemma ByOrg_try_approaches_runs net self project l :
  (exists v, outcome (ByOrg.try_approaches net self project l) = Ok v) /\
  requests_sent (ByOrg.try_approaches net self project l) <= List.length l.
Proof.
  induction l as [|a l [[v IH1] IH2]]; simpl.
  - split; [now eexists | auto].
  - destruct (ByOrg_attempt_runs net self a) as [[r Hr] Hq].
    rewrite outcome_bind, requests_sent_bind, Hr, Hq.
    destruct r as [found|]; simpl.
    + split; [now eexists | unfold requests_sent; simpl; lia].
    + split; [now exists v | lia].
Qed.

Lemma AppIDs_try_approaches_runs net self l :
  (exists v, outcome (AppIDs.try_approaches net self l) = Ok v) /\
  requests_sent (AppIDs.try_approaches net self l) <= List.length l.
Proof.
  induction l as [|a l [[v IH1] IH2]]; simpl.
  - split; [now eexists | auto].
  - destruct (AppIDs_attempt_runs net self a) as [[r Hr] Hq].
    rewrite outcome_bind, requests_sent_bind, Hr, Hq.
    destruct r as [found|]; simpl.
    + split; [now eexists | unfold requests_sent; simpl; lia].
    + split; [now exists v | lia].
Qed.

Lemma ByOrg_attempt_failed net self a st :
  net (method a) (request_url self (endpoint a)) (params a) (data a) = Failure st ->
  outcome (ByOrg.attempt net self a) = Ok None /\
  requests_sent (ByOrg.attempt net self a) = 1.
Proof.
  intros E. unfold ByOrg.attempt, ByOrg._make_request. rewrite E.
  destruct st as [code|]; [destruct (code =? 404)%nat|]; split; reflexivity.
Qed.

Lemma AppIDs_attempt_failed net self a st :
  net (method a) (request_url self (endpoint a)) (params a) (data a) = Failure st ->
  outcome (AppIDs.attempt net self a) = Ok None /\
  requests_sent (AppIDs.attempt net self a) = 1.
Proof.
  intros E. unfold AppIDs.attempt, AppIDs._make_request. rewrite E.
  destruct st as [code|]; [destruct (code =? 404)%nat|]; split; reflexivity.
Qed.

Lemma ByOrg_all_failed net self project l :
  (forall m u p d, exists st, net m u p d = Failure st) ->
  outcome (ByOrg.try_approaches net self project l) = Ok (VList []) /\
  requests_sent (ByOrg.try_approaches net self project l) = List.length l.
Proof.
  intros Hf. induction l as [|a l [IH1 IH2]]; simpl; [split; reflexivity|].
  destruct (Hf (method a) (request_url self (endpoint a)) (params a) (data a))
    as [st E].
  destruct (ByOrg_attempt_failed net self a st E) as [Ho Hq].
  rewrite outcome_bind, requests_sent_bind, Ho, Hq. split; [exact IH1 | lia].
Qed.

Lemma AppIDs_all_failed net self l :
  (forall m u p d, exists st, net m u p d = Failure st) ->
  outcome (AppIDs.try_approaches net self l) = Ok (VList []) /\
  requests_sent (AppIDs.try_approaches net self l) = List.length l.
Proof.
  intros Hf. induction l as [|a l [IH1 IH2]]; simpl; [split; reflexivity|].
  destruct (Hf (method a) (request_url self (endpoint a)) (params a) (data a))
    as [st E].
  destruct (AppIDs_attempt_failed net self a st E) as [Ho Hq].
  rewrite outcome_bind, requests_sent_bind, Ho, Hq. split; [exact IH1 | lia].
Qed.

(** X15. [get_pipelines_in_project] never raises, whatever the server
    answers: it returns a value after at most three requests in
    pipelinesByOrg and two in pipelineAppIDs, and when every request fails it
    returns the empty list after trying them all. *)
Theorem lister_never_raises net (self : client)
    (org_identifier project_identifier : string) :
  (exists v, outcome (ByOrg.get_pipelines_in_project net self org_identifier
                        project_identifier) = Ok v) /\
  requests_sent (ByOrg.get_pipelines_in_project net self org_identifier
                   project_identifier) <= 3 /\
  (exists v, outcome (AppIDs.get_pipelines_in_project net self org_identifier
                        project_identifier) = Ok v) /\
  requests_sent (AppIDs.get_pipelines_in_project net self org_identifier
                   project_identifier) <= 2 /\
  ((forall m u p d, exists st, net m u p d = Failure st) ->
   outcome (ByOrg.get_pipelines_in_project net self org_identifier
              project_identifier) = Ok (VList []) /\
   requests_sent (ByOrg.get_pipelines_in_project net self org_identifier
                    project_identifier) = 3 /\
   outcome (AppIDs.get_pipelines_in_project net self org_identifier
              project_identifier) = Ok (VList []) /\
   requests_sent (AppIDs.get_pipelines_in_project net self org_identifier
                    project_identifier) = 2).
Proof.
  unfold ByOrg.get_pipelines_in_project, AppIDs.get_pipelines_in_project.
  destruct (ByOrg_try_approaches_runs net self project_identifier
              (ByOrg.approaches self org_identifier project_identifier))
    as [B1 B2].
  destruct (AppIDs_try_approaches_runs net self
              (AppIDs.approaches self org_identifier project_identifier))
    as [A1 A2].
  split; [exact B1|]. split; [exact B2|]. split; [exact A1|].
  split; [exact A2|]. intros Hf.
  destruct (ByOrg_all_failed net self project_identifier
              (ByOrg.approaches self org_identifier project_identifier) Hf)
    as [B3 B4].
  destruct (AppIDs_all_failed net self
              (AppIDs.approaches self org_identifier project_identifier) Hf)
    as [A3 A4].
  auto.
Qed.

Lemma lister_never_raises_witness :
  outcome (ByOrg.get_pipelines_in_project (fun _ _ _ _ => Failure (Some 500))
             example_client "org" "proj") = Ok (VList []).
Proof.
  apply (proj2 (proj2 (proj2 (proj2
           (lister_never_raises (fun _ _ _ _ => Failure (Some 500))
              example_client "org" "proj"))))).
  intros m u p d. now exists (Some 500).
Defined.

(** X16. The approaches are tried in order and the first that gives a
    result ends the search: an approach whose request fails costs one
    request and hands over to the next, and an approach answered with a list
    as payload returns it at once, the later approaches not being tried. *)
Theorem lister_falls_back_in_order net (self : client) (a : approach)
    (rest : list approach) (project : string) :
  ((exists st, net (method a) (request_url self (endpoint a)) (params a) (data a)
               = Failure st) ->
   outcome (ByOrg.try_approaches net self project (a :: rest))
     = outcome (ByOrg.try_approaches net self project rest) /\
   requests_sent (ByOrg.try_approaches net self project (a :: rest))
     = 1 + requests_sent (ByOrg.try_approaches net self project rest) /\
   outcome (AppIDs.try_approaches net self (a :: rest))
     = outcome (AppIDs.try_approaches net self rest) /\
   requests_sent (AppIDs.try_approaches net self (a :: rest))
     = 1 + requests_sent (AppIDs.try_approaches net self rest)) /\
  (forall resp l,
     net (method a) (request_url self (endpoint a)) (params a) (data a)
       = Body (VDict resp) ->
     payload resp = VList l ->
     outcome (ByOrg.try_approaches net self project (a :: rest)) = Ok (VList l) /\
     requests_sent (ByOrg.try_approaches net self project (a :: rest)) = 1 /\
     outcome (AppIDs.try_approaches net self (a :: rest)) = Ok (VList l) /\
     requests_sent (AppIDs.try_approaches net self (a :: rest)) = 1).
Proof.
  split.
  - intros [st E].
    destruct (ByOrg_attempt_failed net self a st E) as [Bo Bq].
    destruct (AppIDs_attempt_failed net self a st E) as [Ao Aq].
    cbn [ByOrg.try_approaches AppIDs.try_approaches].
    rewrite !outcome_bind, !requests_sent_bind, Bo, Bq, Ao, Aq. auto.
  - intros resp l E Hp.
    assert (T : truthy (VDict resp) = true).
    { destruct resp; [|reflexivity]. discriminate. }
    cbn [ByOrg.try_approaches AppIDs.try_approaches].
    unfold ByOrg.attempt, AppIDs.attempt, ByOrg._make_request,
      AppIDs._make_request. rewrite E. cbn [bind]. rewrite T.
    unfold ByOrg.pick_items, AppIDs.pick_items, py_get. cbn [ret bind app].
    unfold payload in Hp. rewrite Hp. repeat split.
Qed.

Lemma lister_falls_back_in_order_witness :
  requests_sent
    (ByOrg.get_pipelines_in_project
       (fun _ _ _ _ => Body (VDict [("data", VList [VStr "p"])]))
       example_client "org" "proj") = 1.
Proof.
  unfold ByOrg.get_pipelines_in_project, ByOrg.approaches.
  refine (proj1 (proj2 (proj2 (lister_falls_back_in_order
            (fun _ _ _ _ => Body (VDict [("data", VList [VStr "p"])]))
            example_client _ _ "proj")
            [("data", VList [VStr "p"])] [VStr "p"] eq_refl eq_refl))).
Defined.

(** ** The pipeline YAML fetch *)

Lemma AppIDs_make_request_sent net self m e p d :
  requests_sent (AppIDs._make_request net self m e p d) = 1.
Proof.
  unfold requests_sent.
  fold (requests_of (AppIDs._make_request net self m e p d)).
  now rewrite AppIDs_make_request_requests.
Qed.

Lemma pick_yaml_quiet dump response :
  requests_sent (AppIDs.pick_yaml dump response) = 0.
Proof.
  unfold AppIDs.pick_yaml, py_get.
  destruct response as [| | | | |resp]; try reflexivity.
  cbn [ret bind app].
  destruct (dict_get_default "data" (VDict resp) resp) as [| | | | |d];
    try reflexivity.
  destruct (dict_mem "yamlPipeline" d); [reflexivity|].
  destruct (dict_mem "yaml" d); [reflexivity|].
  destruct (dict_mem "pipelineYaml" d); [reflexivity|].
  destruct (dict_mem "pipeline" d).
  - now destruct (dump (dict_get_default "pipeline" VNone d)).
  - now destruct (dump (VDict d)).
Qed.

Lemma try_endpoints_step net self dump params endpoint rest :
  let response := body (net "GET" (request_url self endpoint) params None) in
  let picked := if truthy response then AppIDs.pick_yaml dump response
                else ret None in
  outcome (AppIDs.try_endpoints net self dump params (endpoint :: rest)) =
    match outcome picked with
    | Ok (Some found) => Ok found
    | Ok None => outcome (AppIDs.try_endpoints net self dump params rest)
    | Raised e => Raised e
    | OutOfFuel => OutOfFuel
    end /\
  requests_sent (AppIDs.try_endpoints net self dump params (endpoint :: rest)) =
    match outcome picked with
    | Ok None => 1 + requests_sent (AppIDs.try_endpoints net self dump params rest)
    | _ => 1
    end.
Proof.
  intros response picked. cbn [AppIDs.try_endpoints].
  rewrite !outcome_bind, !requests_sent_bind, AppIDs_make_request_outcome,
    AppIDs_make_request_sent.
  fold response. fold picked.
  assert (Hq : requests_sent picked = 0).
  { unfold picked. destruct (truthy response); [apply pick_yaml_quiet | reflexivity]. }
  rewrite outcome_bind, requests_sent_bind, Hq.
  destruct (outcome picked) as [[found|]|e|]; split; reflexivity.
Qed.

Lemma try_endpoints_bounded net self dump params l :
  requests_sent (AppIDs.try_endpoints net self dump params l) <= List.length l.
Proof.
  induction l as [|endpoint rest IH]; [simpl; auto|].
  rewrite (proj2 (try_endpoints_step net self dump params endpoint rest)).
  destruct (outcome _) as [[found|]|e|]; simpl; lia.
Qed.

(** X17. [get_pipeline_yaml] takes the first of the fields [yamlPipeline],
    [yaml] and [pipelineYaml] that the payload of the first response has, by
    presence and not by value (an empty or null field is returned as it is),
    and does not ask the second endpoint; with none of them it returns the
    dump of the [pipeline] field, or of the whole payload. *)
Theorem get_pipeline_yaml_field_order net (self : client)
    (yaml_dump : value -> option string)
    (org_identifier project_identifier pipeline_identifier : string)
    (resp d : dict) :
  let run := AppIDs.get_pipeline_yaml net self yaml_dump org_identifier
               project_identifier pipeline_identifier in
  net "GET" (request_url self ("/pipelines/" ++ pipeline_identifier))
    (AppIDs.yaml_params self org_identifier project_identifier) None
    = Body (VDict resp) ->
  resp <> [] ->
  payload resp = VDict d ->
  requests_sent run <= 2 /\
  (dict_mem "yamlPipeline" d = true ->
   outcome run = Ok (dict_get_default "yamlPipeline" VNone d) /\
   requests_sent run = 1) /\
  (dict_mem "yamlPipeline" d = false -> dict_mem "yaml" d = true ->
   outcome run = Ok (dict_get_default "yaml" VNone d) /\ requests_sent run = 1) /\
  (dict_mem "yamlPipeline" d = false -> dict_mem "yaml" d = false ->
   dict_mem "pipelineYaml" d = true ->
   outcome run = Ok (dict_get_default "pipelineYaml" VNone d) /\
   requests_sent run = 1) /\
  (dict_mem "yamlPipeline" d = false -> dict_mem "yaml" d = false ->
   dict_mem "pipelineYaml" d = false ->
   forall text,
     yaml_dump (if dict_mem "pipeline" d
                then dict_get_default "pipeline" VNone d else VDict d)
       = Some text ->
     outcome run = Ok (VStr text) /\ requests_sent run = 1).
Proof.
  intros run E Hne Hp. split; [apply try_endpoints_bounded|].
  assert (T : truthy (VDict resp) = true) by now destruct resp.
  unfold run, AppIDs.get_pipeline_yaml.
  destruct (try_endpoints_step net self yaml_dump
              (AppIDs.yaml_params self org_identifier project_identifier)
              ("/pipelines/" ++ pipeline_identifier)%string
              ["/pipeline/api/pipelines/" ++ pipeline_identifier]%string)
    as [Ho Hq].
  rewrite Ho, Hq, E. cbn [body]. rewrite T.
  unfold AppIDs.pick_yaml, py_get. cbn [ret bind app].
  unfold payload in Hp. rewrite Hp.
  repeat split; intros.
  all: repeat match goal with H : dict_mem _ _ = _ |- _ => rewrite H; clear H end.
  all: try reflexivity.
  all: match goal with |- context [dict_mem "pipeline" ?x] =>
         destruct (dict_mem "pipeline" x) end;
    match goal with H : _ = Some _ |- _ => rewrite H end; reflexivity.
Qed.

Lemma get_pipeline_yaml_field_order_witness :
  outcome (AppIDs.get_pipeline_yaml
             (fun _ _ _ _ =>
                Body (VDict [("data", VDict [("yamlPipeline", VStr "")])]))
             example_client (fun _ => None) "org" "proj" "build")
  = Ok (VStr "").
Proof.
  refine (proj1 (proj1 (proj2 (get_pipeline_yaml_field_order
            (fun _ _ _ _ =>
               Body (VDict [("data", VDict [("yamlPipeline", VStr "")])]))
            example_client (fun _ => None) "org" "proj" "build"
            [("data", VDict [("yamlPipeline", VStr "")])]
            [("yamlPipeline", VStr "")] eq_refl _ eq_refl)) eq_refl)).
  discriminate.
Defined.

(** X18. [get_pipeline_yaml] returns [None] after asking both endpoints
    when both requests fail, and raises [AttributeError] when the first
    response is not empty and no mapping: the call of [get] on it is outside
    any [try]. *)
Theorem get_pipeline_yaml_failures net (self : client)
    (yaml_dump : value -> option string)
    (org_identifier project_identifier pipeline_identifier : string) :
  let run := AppIDs.get_pipeline_yaml net self yaml_dump org_identifier
               project_identifier pipeline_identifier in
  let first := net "GET" (request_url self ("/pipelines/" ++ pipeline_identifier))
                 (AppIDs.yaml_params self org_identifier project_identifier) None in
  ((forall m u p d, exists st, net m u p d = Failure st) ->
   outcome run = Ok VNone /\ requests_sent run = 2) /\
  (truthy (body first) = true -> is_dict (body first) = false ->
   outcome run = Raised AttributeError /\ requests_sent run = 1).
Proof.
  intros run first. unfold run, AppIDs.get_pipeline_yaml.
  destruct (try_endpoints_step net self yaml_dump
              (AppIDs.yaml_params self org_identifier project_identifier)
              ("/pipelines/" ++ pipeline_identifier)%string
              ["/pipeline/api/pipelines/" ++ pipeline_identifier]%string)
    as [Ho Hq].
  destruct (try_endpoints_step net self yaml_dump
              (AppIDs.yaml_params self org_identifier project_identifier)
              ("/pipeline/api/pipelines/" ++ pipeline_identifier)%string [])
    as [Ho2 Hq2].
  split.
  - intros Hf. rewrite Ho, Hq, Ho2, Hq2.
    destruct (Hf "GET" (request_url self ("/pipelines/" ++ pipeline_identifier))
                (AppIDs.yaml_params self org_identifier project_identifier) None)
      as [st1 ->].
    destruct (Hf "GET"
                (request_url self ("/pipeline/api/pipelines/" ++ pipeline_identifier))
                (AppIDs.yaml_params self org_identifier project_identifier) None)
      as [st2 ->].
    split; reflexivity.
  - intros T D. rewrite Ho, Hq. fold first. rewrite T.
    unfold AppIDs.pick_yaml, py_get.
    destruct (body first); try discriminate; split; reflexivity.
Qed.

Lemma get_pipeline_yaml_failures_witness :
  outcome (AppIDs.get_pipeline_yaml (fun _ _ _ _ => Body (VList [VInt 1]))
             example_client (fun _ => None) "org" "proj" "build")
  = Raised AttributeError.
Proof.
  apply (proj2 (get_pipeline_yaml_failures (fun _ _ _ _ => Body (VList [VInt 1]))
                  example_client (fun _ => None) "org" "proj" "build"));
    reflexivity.
Defined.

(** ** The appID extractor, further *)

Lemma set_add_In x s y : In y (AppIDs.set_add x s) <-> y = x \/ In y s.
Proof.
  unfold AppIDs.set_add. destruct (existsb (String.eqb x) s) eqn:E.
  - apply existsb_exists in E as (z & Hz & Ez). apply String.eqb_eq in Ez. subst z.
    split; [auto | intros [->|H]; auto].
  - rewrite in_app_iff. simpl. intuition.
Qed.

Lemma set_add_NoDup x s : NoDup s -> NoDup (AppIDs.set_add x s).
Proof.
  intros ND. unfold AppIDs.set_add. destruct (existsb (String.eqb x) s) eqn:E.
  - exact ND.
  - apply (Permutation_NoDup (Permutation_cons_append s x)).
    constructor; [|exact ND]. intros Hx.
    assert (existsb (String.eqb x) s = true); [|congruence].
    apply existsb_exists. exists x. split; [exact Hx | apply String.eqb_refl].
Qed.

Lemma set_update_In l : forall s y,
  In y (AppIDs.set_update s l) <-> In y s \/ In y l.
Proof.
  unfold AppIDs.set_update.
  induction l as [|x l IH]; simpl; intros s y; [tauto|].
  rewrite IH, set_add_In. intuition.
Qed.


Lemma set_add_present x s : In x s -> AppIDs.set_add x s = s.
Proof.
  intros H. unfold AppIDs.set_add.
  assert (E : existsb (String.eqb x) s = true).
  { apply existsb_exists. exists x. split; [exact H | apply String.eqb_refl]. }
  now rewrite E.
Qed.

Lemma set_update_present l : forall s,
  (forall x, In x l -> In x s) -> AppIDs.set_update s l = s.
Proof.
  unfold AppIDs.set_update.
  induction l as [|x l IH]; simpl; intros s H; [reflexivity|].
  rewrite set_add_present by auto. apply IH. auto.
Qed.

Lemma scan_fold_In text keys : forall s y,
  In y (fold_left (fun acc key => AppIDs.set_update acc (AppIDs.findall key text))
          keys s)
  <-> In y s \/ exists key, In key keys /\ In y (AppIDs.findall key text).
Proof.
  induction keys as [|k keys IH]; simpl; intros s y.
  - split; [auto | intros [H|(key & [] & _)]; auto].
  - rewrite IH, set_update_In. split.
    + intros [[H|H]|(key & Hk & H)]; eauto.
    + intros [H|(key & [<-|Hk] & H)]; eauto.
Qed.


Lemma scan_tags_result repr tags : forall s r,
  AppIDs.scan_tags repr tags s = Ok r ->
  (NoDup s -> NoDup r) /\
  (forall y, In y s -> In y r) /\
  (forall k v, In (AppIDs.KStr k, v) tags ->
     AppIDs.contains "appid" (AppIDs.lower k)
     || AppIDs.contains "app_id" (AppIDs.lower k) = true ->
     In (AppIDs.str repr v) r).
Proof.
  induction tags as [|[key v] tags IH]; simpl; intros s r H.
  - injection H as <-. repeat split; auto. intros k v [].
  - destruct key as [| | |k]; try discriminate.
    destruct (AppIDs.contains "appid" (AppIDs.lower k)
              || AppIDs.contains "app_id" (AppIDs.lower k)) eqn:E.
    + destruct (IH _ _ H) as (H1 & H2 & H3). repeat split.
      * intros ND. apply H1. now apply set_add_NoDup.
      * intros y Hy. apply H2. apply set_add_In. auto.
      * intros k' v' [[= <- <-]|Hin] Hm; [|eauto].
        apply H2. apply set_add_In. auto.
    + destruct (IH _ _ H) as (H1 & H2 & H3). repeat split; auto.
      intros k' v' [[= <- <-]|Hin] Hm; [congruence | eauto].
Qed.

Lemma scan_tags_strings repr tags : forall s,
  string_keys tags = true -> exists r, AppIDs.scan_tags repr tags s = Ok r.
Proof.
  induction tags as [|[key v] tags IH]; simpl; intros s H; [eauto|].
  apply andb_prop in H as [H1 H2]. destruct key; try discriminate.
  destruct (_ || _); auto.
Qed.




(** X20. When the document is a mapping whose [tags] are a mapping with
    string keys only, the extractor returns a set that holds the value of
    every tag whose key contains [appid] or [app_id], whatever its case, next
    to everything the patterns find in the dumped text. *)
Theorem matching_tags_are_extracted safe_load dump repr (yaml_content : string)
    (d tags : list (AppIDs.ykey * AppIDs.yaml)) :
  safe_load yaml_content = AppIDs.Loaded (AppIDs.YMap d) ->
  AppIDs.ymap_get "tags" d = Some (AppIDs.YMap tags) ->
  string_keys tags = true ->
  exists app_ids,
    AppIDs.extract_app_ids_from_yaml safe_load dump repr yaml_content = Ok app_ids /\
    (forall k v, In (AppIDs.KStr k, v) tags ->
       AppIDs.contains "appid" (AppIDs.lower k)
       || AppIDs.contains "app_id" (AppIDs.lower k) = true ->
       In (AppIDs.str repr v) app_ids) /\
    (forall key y, In key AppIDs.patterns ->
       In y (AppIDs.findall key (dump (AppIDs.YMap d))) -> In y app_ids).
Proof.
  intros Hl Ht Hs. unfold AppIDs.extract_app_ids_from_yaml. rewrite Hl, Ht.
  assert (T : AppIDs.yaml_truthy (AppIDs.YMap d) = true).
  { destruct d; [discriminate | reflexivity]. }
  rewrite T.
  destruct (scan_tags_strings repr tags
              (AppIDs.scan (dump (AppIDs.YMap d)) []) Hs) as [r Hr].
  exists r. split; [exact Hr|].
  destruct (scan_tags_result repr tags _ _ Hr) as (_ & H2 & H3).
  split; [exact H3|]. intros key y Hk Hy. apply H2.
  unfold AppIDs.scan. apply scan_fold_In. right. eauto.
Qed.

Lemma matching_tags_are_extracted_witness :
  exists app_ids,
    AppIDs.extract_app_ids_from_yaml
      (fun _ => AppIDs.Loaded
                  (AppIDs.YMap [(AppIDs.KStr "tags",
                                 AppIDs.YMap [(AppIDs.KStr "My_APP_ID", AppIDs.YInt 7)])]))
      (fun _ => "") (fun _ => "") "" = Ok app_ids /\
    In "7" app_ids.
Proof.
  destruct (matching_tags_are_extracted
              (fun _ => AppIDs.Loaded
                  (AppIDs.YMap [(AppIDs.KStr "tags",
                                 AppIDs.YMap [(AppIDs.KStr "My_APP_ID", AppIDs.YInt 7)])]))
              (fun _ => "") (fun _ => "") ""
              [(AppIDs.KStr "tags",
                AppIDs.YMap [(AppIDs.KStr "My_APP_ID", AppIDs.YInt 7)])]
              [(AppIDs.KStr "My_APP_ID", AppIDs.YInt 7)]
              eq_refl eq_refl eq_refl) as (app_ids & H1 & H2 & _).
  exists app_ids. split; [exact H1|].
  apply (H2 "My_APP_ID" (AppIDs.YInt 7)); [now left | reflexivity].
Defined.

Lemma lower_append a b :
  AppIDs.lower (a ++ b) = (AppIDs.lower a ++ AppIDs.lower b)%string.
Proof. induction a as [|c a IH]; simpl; [reflexivity | now rewrite IH]. Qed.

Lemma match_key_lower key1 : forall key2 text,
  AppIDs.lower key1 = AppIDs.lower key2 ->
  AppIDs.match_key key1 text = AppIDs.match_key key2 text.
Proof.
  induction key1 as [|c key1 IH]; intros [|c2 key2] text H; simpl in H;
    try discriminate; [reflexivity|].
  injection H as Hc H. destruct text as [|x text]; simpl; [reflexivity|].
  rewrite Hc. destruct (Ascii.eqb _ _); [now apply IH | reflexivity].
Qed.

Lemma match_here_lower key1 key2 text :
  AppIDs.lower key1 = AppIDs.lower key2 ->
  AppIDs.match_here key1 text = AppIDs.match_here key2 text.
Proof.
  intros H. unfold AppIDs.match_here.
  rewrite (match_key_lower (key1 ++ ":") (key2 ++ ":") text);
    [reflexivity|]. now rewrite !lower_append, H.
Qed.

Lemma findall_from_lower key1 key2 text :
  AppIDs.lower key1 = AppIDs.lower key2 ->
  forall skip, AppIDs.findall_from key1 skip text = AppIDs.findall_from key2 skip text.
Proof.
  intros H. induction text as [|c text IH]; intros skip; [reflexivity|].
  cbn [AppIDs.findall_from]. destruct skip as [|n]; [|apply IH].
  rewrite (match_here_lower key1 key2 _ H).
  destruct (AppIDs.match_here key2 (String c text)) as [[tok rest]|];
    now rewrite IH.
Qed.

(** X21. The patterns take no account of the case of the key name, so the
    third pattern, [appId], finds exactly what the first, [appid], finds:
    scanning with the five patterns gives the same set as scanning without
    the third. *)
Theorem appId_pattern_adds_nothing :
  (forall key1 key2 text,
      AppIDs.lower key1 = AppIDs.lower key2 ->
      AppIDs.findall key1 text = AppIDs.findall key2 text) /\
  (forall text app_ids,
      AppIDs.scan text app_ids =
      fold_left (fun acc key => AppIDs.set_update acc (AppIDs.findall key text))
        patterns_without_appId app_ids).
Proof.
  split.
  - intros key1 key2 text H. now apply findall_from_lower.
  - intros text app_ids. unfold AppIDs.scan, AppIDs.patterns,
      patterns_without_appId. cbn [fold_left].
    rewrite (set_update_present (AppIDs.findall "appId" text)); [reflexivity|].
    intros x Hx.
    unfold AppIDs.findall in *.
    rewrite (findall_from_lower "appId" "appid" text eq_refl 0) in Hx.
    apply set_update_In. left. apply set_update_In. now right.
Qed.

Lemma appId_pattern_adds_nothing_witness :
  AppIDs.findall "APPID" "AppId: svc-42" = AppIDs.findall "appid" "AppId: svc-42".
Proof.
  apply (proj1 appId_pattern_adds_nothing). reflexivity.
Defined.

Lemma take_token_chars text :
  all_chars AppIDs.is_token_char (fst (AppIDs.take_token text)) = true.
Proof.
  induction text as [|c text IH]; simpl; [reflexivity|].
  destruct (AppIDs.is_token_char c) eqn:E; [|reflexivity].
  destruct (AppIDs.take_token text) as [tok rest]. simpl in *. now rewrite E.
Qed.

Lemma match_here_token key text tok rest :
  AppIDs.match_here key text = Some (tok, rest) ->
  tok <> "" /\ all_chars AppIDs.is_token_char tok = true.
Proof.
  unfold AppIDs.match_here.
  destruct (AppIDs.match_key (key ++ ":") text) as [after|]; [|discriminate].
  pose proof (take_token_chars
                (AppIDs.skip_quote (AppIDs.skip_spaces after))) as H.
  destruct (AppIDs.take_token (AppIDs.skip_quote (AppIDs.skip_spaces after)))
    as [t r]. simpl in H.
  destruct t as [|c t]; [discriminate|].
  intros [= <- <-]. split; [discriminate | exact H].
Qed.

(** X22. Every value the patterns find is a token: it is not empty and has
    no quote and no white space in it. *)
Theorem found_values_are_tokens (key text tok : string) :
  In tok (AppIDs.findall key text) ->
  tok <> "" /\ all_chars AppIDs.is_token_char tok = true.
Proof.
  unfold AppIDs.findall. generalize 0 as skip.
  induction text as [|c text IH]; intros skip; [intros []|].
  cbn [AppIDs.findall_from]. destruct skip as [|n]; [|apply IH].
  destruct (AppIDs.match_here key (String c text)) as [[t rest]|] eqn:E;
    [|apply IH].
  intros [<-|H]; [|eapply IH; eauto].
  eapply match_here_token; eauto.
Qed.

Lemma found_values_are_tokens_witness :
  "svc-42" <> "" /\ all_chars AppIDs.is_token_char "svc-42" = true.
Proof.
  apply (found_values_are_tokens "appid" AppIDs.scenario "svc-42").
  vm_compute. now left.
Defined.

(** ** The entry points, further *)

Lemma no_organizations_run net make_request (self : client) fuel :
  (forall m e p d,
      outcome (make_request m e p d) = Ok (body (net m (request_url self e) p d))) ->
  (forall m e p d,
      requests_of (make_request m e p d) = [Request m (request_url self e) p d]) ->
  (read_page (net "GET" (request_url self "/organizations")
                (page_params self 0) None) = Some Absent \/
   read_page (net "GET" (request_url self "/organizations")
                (page_params self 0) None) = Some NoContent) ->
  exists t, get_organizations make_request self (S fuel) = (t, Ok []) /\
            List.length (filter is_request t) = 1.
Proof.
  intros Ho Hq Hr.
  destruct (walker_meets_contract net make_request self Ho Hq) as (Run & _ & _).
  destruct Hr as [Hr|Hr].
  - destruct (Run (fun _ => Absent) 0 (S fuel)) as [H1 H2]; auto; try lia.
    { intros p Hp. replace p with 0 by lia. exact Hr. }
    destruct (get_organizations make_request self (S fuel)) as [t r].
    unfold requests_of, outcome, trace in *. simpl in *. subst r.
    exists t. split; [reflexivity | now rewrite H1].
  - destruct (Run (fun _ => NoContent) 0 (S fuel)) as [H1 H2]; auto; try lia.
    { intros p Hp. replace p with 0 by lia. exact Hr. }
    destruct (get_organizations make_request self (S fuel)) as [t r].
    unfold requests_of, outcome, trace in *. simpl in *. subst r.
    exists t. split; [reflexivity | now rewrite H1].
Qed.

(** X23. With the variables set, when the first page of organizations is
    absent or has no content both scripts stop with status 1 after that one
    request, and the loops over organizations and the report are not run. *)
Theorem main_stops_without_organizations net (env : environ)
    (report : client -> list value -> M unit) (fuel : nat) :
  let client := mkClient (match HARNESS_API_TOKEN env with
                          | Some s => s
                          | None => ""
                          end) (HARNESS_ACCT_ID env) "https://app.harness.io" in
  let first := net "GET" (request_url client "/organizations")
                 (page_params client 0) None in
  unset (HARNESS_API_TOKEN env) = false ->
  read_page first = Some Absent \/ read_page first = Some NoContent ->
  (HARNESS_ACCT_ID env <> Some "your_account_id_here" ->
   exit_code (ByOrg.main net env report (S fuel)) = Some 1 /\
   requests_sent (ByOrg.main net env report (S fuel)) = 1) /\
  (unset (HARNESS_ACCT_ID env) = false ->
   exit_code (AppIDs.main net env report (S fuel)) = Some 1 /\
   requests_sent (AppIDs.main net env report (S fuel)) = 1).
Proof.
  intros client first Ht Hr. split.
  - intros Ha. unfold ByOrg.main. rewrite Ht.
    assert (E : match HARNESS_ACCT_ID env with
                | Some s => (s =? "your_account_id_here")%string
                | None => false
                end = false).
    { destruct (HARNESS_ACCT_ID env) as [s|]; [|reflexivity].
      apply String.eqb_neq. congruence. }
    rewrite E. unfold ByOrg.get_organizations.
    destruct (no_organizations_run net (ByOrg._make_request net client) client fuel
                (ByOrg_make_request_outcome net client)
                (ByOrg_make_request_requests net client) Hr) as (t & Et & Lt).
    fold client. unfold ByOrg.BASE_URL. fold client. rewrite Et.
    unfold exit_code, requests_sent, outcome, trace. cbn [print bind raise app fst snd].
    split; [reflexivity|].
    cbn [filter is_request]. now rewrite filter_app, length_app, Lt.
  - intros Ha. unfold AppIDs.main. rewrite Ht, Ha.
    unfold AppIDs.get_organizations.
    destruct (no_organizations_run net (AppIDs._make_request net client) client fuel
                (AppIDs_make_request_outcome net client)
                (AppIDs_make_request_requests net client) Hr) as (t & Et & Lt).
    fold client. unfold AppIDs.BASE_URL. fold client. rewrite Et.
    unfold exit_code, requests_sent, outcome, trace. cbn [print bind raise app fst snd].
    split; [reflexivity|].
    cbn [filter is_request]. now rewrite filter_app, length_app, Lt.
Qed.

Lemma main_stops_without_organizations_witness :
  exit_code (AppIDs.main (fun _ _ _ _ => Failure None)
               (mkEnv (Some "token") (Some "account"))
               (fun _ _ => ret tt) 1) = Some 1.
Proof.
  refine (proj1 (proj2 (main_stops_without_organizations
            (fun _ _ _ _ => Failure None)
            (mkEnv (Some "token") (Some "account")) (fun _ _ => ret tt) 0
            eq_refl (or_introl eq_refl)) eq_refl)).
Defined.
